(** * The xfactor site_factor plugin of Slurm

    A shallow embedding of
    [src/plugins/site_factor/xfactor/site_factor_xfactor.c] and the
    properties of its parameter parser and of its factor computation.

    Conventions.
    - [uint32_t] and [uint64_t] values are integers of [Z]; every place where
      the C code converts to 32 bits is written out with [u32].
    - [time_t] is a signed integer of [Z] (LP64: 64 bits, and so is [long]).
    - The three plugin globals, what the host hands to the plugin (the
      configuration string, the debug flags, the wall clock) and the calls
      made to the logging interface live in one record, [world], threaded
      through the plugin's functions by a small state monad.
    - Constants and macros of [slurm/slurm.h] and [src/slurmctld/slurmctld.h]
      that the plugin uses but does not declare are the fields of the class
      [slurm_h]; [slurm_h_19_05] instantiates it with Slurm's values. *)

From Stdlib Require Import ZArith Bool List String Ascii Lia.
Import ListNotations.

Local Open Scope string_scope.
Local Open Scope Z_scope.

(** ** Machine integers *)

Definition U32_MOD : Z := 2 ^ 32.

(** Conversion to [uint32_t]. *)
Definition u32 (z : Z) : Z := z mod U32_MOD.

(** [a * b] on two [uint32_t] operands: the usual arithmetic conversions keep
    the operation in [unsigned int], whatever the type of the variable the
    result is stored in. *)
Definition mul_u32 (a b : Z) : Z := u32 (a * b).

(** [a + b] on two [uint32_t] operands. *)
Definition add_u32 (a b : Z) : Z := u32 (a + b).

Definition is_u32 (z : Z) : Prop := 0 <= z < U32_MOD.

(** The macros of [src/common/macros.h]. *)
Definition MAX (a b : Z) : Z := if a >? b then a else b.
Definition MIN (a b : Z) : Z := if a <? b then a else b.

(** ** [lround] of a quotient of two [uint32_t]

    [quotient = (double)delta / (double)tmp_time; factor = lround(quotient)].
    Both operands are below [2^32], so their conversion to [double] is exact
    and the division returns the double nearest to the rational
    [delta / tmp_time].  Half-integers below [2^32] are doubles, and a
    quotient of two such operands that is not a half-integer is further than
    half an ulp away from each of them, so the correctly rounded quotient lies
    on the same side of every half-integer as the rational one: [lround]
    returns the integer nearest to [delta / tmp_time], ties away from zero,
    which for non-negative operands is [(2 * delta + tmp_time) / (2 * tmp_time)]
    rounded down.

    A zero divisor makes the quotient infinite ([delta] is positive where the
    division happens); [lround] then returns an unspecified [long], whose
    conversion to [uint32_t] is the field [lround_inf] of [libm] below. *)
Class libm := {
  lround_inf : Z;
  lround_inf_u32 : is_u32 lround_inf
}.

Definition lround_quotient `{libm} (delta tmp_time : Z) : Z :=
  if tmp_time =? 0 then lround_inf
  else u32 ((2 * delta + tmp_time) / (2 * tmp_time)).

(** ** Strings of the C library *)

Definition isspace (c : ascii) : bool :=
  let n := nat_of_ascii c in
  (Nat.eqb n 32 || (Nat.leb 9 n && Nat.leb n 13))%bool.

Definition isdigit (c : ascii) : bool :=
  let n := nat_of_ascii c in (Nat.leb 48 n && Nat.leb n 57)%bool.

Definition digit_value (c : ascii) : Z := Z.of_nat (nat_of_ascii c) - 48.

Definition tolower (c : ascii) : ascii :=
  let n := nat_of_ascii c in
  if (Nat.leb 65 n && Nat.leb n 90)%bool then ascii_of_nat (n + 32) else c.

(** [p + n] on a pointer into a string.  The plugin adds the length of a key
    to the pointer at an occurrence of that key, which stays inside the
    string. *)
Fixpoint ptr_add (p : string) (n : nat) : string :=
  match n, p with
  | O, _ => p
  | S n', String _ rest => ptr_add rest n'
  | S _, EmptyString => EmptyString
  end.

Fixpoint skip_spaces (s : string) : string :=
  match s with
  | String c rest => if isspace c then skip_spaces rest else s
  | EmptyString => s
  end.

(** The digits at the head of [s], read in base ten onto [acc]. *)
Fixpoint read_digits (s : string) (acc : Z) : Z :=
  match s with
  | String c rest =>
      if isdigit c then read_digits rest (10 * acc + digit_value c) else acc
  | EmptyString => acc
  end.

Definition LONG_MAX : Z := 2 ^ 63 - 1.
Definition LONG_MIN : Z := - 2 ^ 63.

(** [strtol(s, NULL, 10)]: white space, an optional sign, digits; the value
    saturates at the bounds of [long]. *)
Definition strtol10 (s : string) : Z :=
  let s := skip_spaces s in
  let v :=
    match s with
    | String "-" rest => - read_digits rest 0
    | String "+" rest => read_digits rest 0
    | _ => read_digits s 0
    end in
  Z.max LONG_MIN (Z.min LONG_MAX v).

(** Conversion to [int]. *)
Definition to_int (z : Z) : Z := (z + 2 ^ 31) mod U32_MOD - 2 ^ 31.

(** [atoi(s)] is [(int) strtol(s, NULL, 10)]. *)
Definition atoi (s : string) : Z := to_int (strtol10 s).

(** [needle] is at the head of [hay], letter case apart. *)
Fixpoint prefix_nocase (needle hay : string) : bool :=
  match needle, hay with
  | EmptyString, _ => true
  | String a needle', String b hay' =>
      (Ascii.eqb (tolower a) (tolower b) && prefix_nocase needle' hay')%bool
  | String _ _, EmptyString => false
  end.

(** Modelled from the spec: [xstrcasestr] of [src/common/xstring.c], which is
    not among the sources; it locates a substring case-insensitively and
    returns the pointer to its first occurrence, or NULL. *)
Fixpoint xstrcasestr (haystack needle : string) : option string :=
  match haystack with
  | EmptyString => None
  | String _ rest =>
      if prefix_nocase needle haystack then Some haystack
      else xstrcasestr rest needle
  end.

(** ** Job records

    The fields of [struct job_record], [struct job_details] and
    [struct part_record] that the plugin reads or writes.  The pointers
    [details] and [part_ptr] may be NULL. *)

Record job_details := mk_job_details {
  accrue_time : Z                      (* time_t *)
}.

Record part_record := mk_part_record {
  max_time : Z                         (* uint32_t, minutes or INFINITE *)
}.

Record job_record := mk_job_record {
  details : option job_details;
  job_state : Z;                       (* uint32_t *)
  part_ptr : option part_record;
  site_factor : Z;                     (* uint32_t *)
  time_limit : Z                       (* uint32_t, minutes or NO_VAL *)
}.

Definition set_site_factor (job_ptr : job_record) (v : Z) : job_record :=
  {| details := details job_ptr;
     job_state := job_state job_ptr;
     part_ptr := part_ptr job_ptr;
     site_factor := v;
     time_limit := time_limit job_ptr |}.

(** ** The host's headers

    The constants and the macro that the plugin takes from Slurm's headers.
    [NICE_OFFSET] is a positive [uint32_t] constant; [NO_VAL] and [INFINITE]
    are the [uint32_t] sentinels of an unset and of an unbounded limit; the
    status [SLURM_SUCCESS] is not negative. *)
Class slurm_h := {
  NICE_OFFSET : Z;
  NO_VAL : Z;
  INFINITE : Z;
  SLURM_SUCCESS : Z;
  DEBUG_FLAG_PRIO : Z;
  IS_JOB_PENDING : job_record -> bool;
  NICE_OFFSET_range : 1 <= NICE_OFFSET < U32_MOD;
  SLURM_SUCCESS_not_negative : 0 <= SLURM_SUCCESS
}.

(** ** The world of the plugin *)

Inductive log_level := LOG_ERROR | LOG_DEBUG.

Inductive log_arg :=
| arg_s (s : string)                   (* %s *)
| arg_u (u : Z).                       (* %u *)

Record log_call := mk_log_call {
  level : log_level;
  format : string;
  args : list log_arg
}.

Record world := mk_world {
  (* the globals of the plugin *)
  xfactor_min_time : Z;                (* uint32_t *)
  xfactor_max : Z;                     (* uint32_t *)
  xfactor_weight : Z;                  (* uint32_t *)
  (* the host *)
  priority_site_factor_params : option string;
  debug_flags : Z;                     (* uint64_t *)
  wall_clock : nat -> Z;               (* the n-th reading of time(NULL) *)
  time_calls : nat;
  log : list log_call
}.

(** The part of the world that belongs to the plugin. *)
Definition parameters (w : world) : Z * Z * Z :=
  (xfactor_min_time w, xfactor_max w, xfactor_weight w).

Definition world_is_u32 (w : world) : Prop :=
  is_u32 (xfactor_min_time w) /\ is_u32 (xfactor_max w) /\
  is_u32 (xfactor_weight w).

(** ** The state monad *)

Definition M (A : Type) : Type := world -> A * world.

Definition ret {A} (a : A) : M A := fun w => (a, w).

Definition bind {A B} (m : M A) (k : A -> M B) : M B :=
  fun w => let (a, w') := m w in k a w'.

Notation "x <- m ;; k" := (bind m (fun x => k))
  (at level 61, m at next level, right associativity).
Notation "m ;; k" := (bind m (fun _ => k))
  (at level 61, right associativity).

Definition gets {A} (f : world -> A) : M A := fun w => (f w, w).

Definition set_xfactor_min_time (v : Z) : M unit := fun w =>
  (tt, mk_world v (xfactor_max w) (xfactor_weight w)
         (priority_site_factor_params w) (debug_flags w)
         (wall_clock w) (time_calls w) (log w)).

Definition set_xfactor_max (v : Z) : M unit := fun w =>
  (tt, mk_world (xfactor_min_time w) v (xfactor_weight w)
         (priority_site_factor_params w) (debug_flags w)
         (wall_clock w) (time_calls w) (log w)).

Definition set_xfactor_weight (v : Z) : M unit := fun w =>
  (tt, mk_world (xfactor_min_time w) (xfactor_max w) v
         (priority_site_factor_params w) (debug_flags w)
         (wall_clock w) (time_calls w) (log w)).

Definition log_msg (l : log_level) (fmt : string) (a : list log_arg)
  : M unit := fun w =>
  (tt, mk_world (xfactor_min_time w) (xfactor_max w) (xfactor_weight w)
         (priority_site_factor_params w) (debug_flags w)
         (wall_clock w) (time_calls w) (log w ++ [mk_log_call l fmt a])).

Definition error := log_msg LOG_ERROR.
Definition debug := log_msg LOG_DEBUG.

(** [time(NULL)]: the next reading of the wall clock. *)
Definition time_NULL : M Z := fun w =>
  (wall_clock w (time_calls w),
   mk_world (xfactor_min_time w) (xfactor_max w) (xfactor_weight w)
     (priority_site_factor_params w) (debug_flags w)
     (wall_clock w) (S (time_calls w)) (log w)).

Definition slurm_get_priority_site_factor_params : M (option string) :=
  gets priority_site_factor_params.

Definition slurm_get_debug_flags : M Z := gets debug_flags.

(** ** The plugin *)

Definition plugin_name : string := "xfactor site_factor plugin".
Definition plugin_type : string := "site_factor/xfactor".

(** The initial values of the globals. *)
Definition loaded `{slurm_h} (w : world) : Prop :=
  parameters w = (1, NICE_OFFSET, 1).

Section Plugin.

Context `{slurm_h} `{libm}.

(** The code at the label [cleanup] of [_parse_parameters]. *)
Definition cleanup : M unit :=
  (* xfree(params); *)
  flags <- slurm_get_debug_flags ;;
  if Z.land flags DEBUG_FLAG_PRIO =? 0 then ret tt
  else
    min_time <- gets xfactor_min_time ;;
    max <- gets xfactor_max ;;
    weight <- gets xfactor_weight ;;
    debug "%s: xfactor_min_time=%u, xfactor_max=%u, xfactor_weight=%u"
      [arg_s plugin_type; arg_u min_time; arg_u max; arg_u weight].

Definition _parse_parameters : M unit :=
  params <- slurm_get_priority_site_factor_params ;;
  match params with
  | None =>
      error "%s: PrioritySiteFactorParameters not set." [arg_s plugin_type]
  | Some params =>
    match xstrcasestr params "xfactor_min_time=" with
    | None =>
        error "%s: xfactor_min_time not configured." [arg_s plugin_type] ;;
        cleanup
    | Some tmp_ptr =>
      let min_time := u32 (atoi (ptr_add tmp_ptr 17)) in
      if (min_time <? 1) || (min_time >? 129600) then
        error "%s: invalid xfactor_min_time value." [arg_s plugin_type] ;;
        cleanup
      else
        set_xfactor_min_time min_time ;;
        match xstrcasestr params "xfactor_max=" with
        | None =>
            error "%s: xfactor_max not configured." [arg_s plugin_type] ;;
            cleanup
        | Some tmp_ptr =>
          let max := u32 (atoi (ptr_add tmp_ptr 12)) in
          if (max <? 1) || (max >? NICE_OFFSET) then
            error "%s: invalid xfactor_max value." [arg_s plugin_type] ;;
            cleanup
          else
            set_xfactor_max max ;;
            match xstrcasestr params "xfactor_weight=" with
            | None =>
                error "%s: xfactor_weight not configured."
                  [arg_s plugin_type] ;;
                cleanup
            | Some tmp_ptr =>
              let weight := u32 (atoi (ptr_add tmp_ptr 15)) in
              if (weight <? 1) || (weight >? NICE_OFFSET) then
                error "%s: invalid xfactor_weight value."
                  [arg_s plugin_type] ;;
                cleanup
              else
                set_xfactor_weight weight ;;
                cleanup
            end
        end
    end
  end.

Definition init : M Z :=
  debug "%s: %s loaded" [arg_s "init"; arg_s plugin_name] ;;
  _parse_parameters ;;
  ret SLURM_SUCCESS.

Definition fini : M Z :=
  debug "%s: unloading %s" [arg_s "fini"; arg_s plugin_name] ;;
  ret SLURM_SUCCESS.

Definition site_factor_p_reconfig : M unit :=
  _parse_parameters.

(** The locals of [_calc_factor], each as the statement that assigns it. *)

(** [if (now > accrue_time) delta = now - accrue_time;] on [delta = 0]. *)
Definition calc_delta (now accrue : Z) : Z :=
  if now >? accrue then u32 (now - accrue) else 0.

(** The two branches that assign [tmp_time], initially 1. *)
Definition calc_time_limit (job_ptr : job_record) : Z :=
  if negb (time_limit job_ptr =? NO_VAL) then time_limit job_ptr
  else
    match part_ptr job_ptr with
    | Some part =>
        if negb (max_time part =? INFINITE) then max_time part else 1
    | None => 1
    end.

(** [tmp_time = MAX(tmp_time, xfactor_min_time);] *)
Definition calc_tmp_time (job_ptr : job_record) (min_time : Z) : Z :=
  MAX (calc_time_limit job_ptr) min_time.

(** [weightened_factor = factor * xfactor_weight;] the product of two
    [uint32_t], stored in a [uint64_t]. *)
Definition calc_weightened_factor (factor weight : Z) : Z :=
  mul_u32 factor weight.

Definition _calc_factor (job_ptr : job_record) : M Z :=
  let factor := 0 in
  now <- time_NULL ;;
  weight <- gets xfactor_weight ;;
  match details job_ptr with
  | None => ret factor
  | Some det =>
    if (weight =? 0) || (accrue_time det =? 0) then ret factor
    else
      let delta := calc_delta now (accrue_time det) in
      if delta =? 0 then ret factor
      else
        min_time <- gets xfactor_min_time ;;
        let tmp_time := calc_tmp_time job_ptr min_time in
        let factor := lround_quotient delta tmp_time in
        let weightened_factor := calc_weightened_factor factor weight in
        max <- gets xfactor_max ;;
        let factor := u32 (MIN weightened_factor max) in
        flags <- slurm_get_debug_flags ;;
        (if Z.land flags DEBUG_FLAG_PRIO =? 0 then ret tt
         else debug "%s: weightened site_factor=%u"
                [arg_s plugin_type; arg_u factor]) ;;
        ret factor
  end.

Definition site_factor_p_set (job_ptr : job_record) : M job_record :=
  factor <- _calc_factor job_ptr ;;
  ret (set_site_factor job_ptr (add_u32 factor NICE_OFFSET)).

(** The visitor of the job list; it returns the record as the call leaves it
    and its status. *)
Definition _update (x : job_record) : M (job_record * Z) :=
  let job_ptr := x in
  if IS_JOB_PENDING job_ptr then
    factor <- _calc_factor job_ptr ;;
    ret (set_site_factor job_ptr (add_u32 factor NICE_OFFSET), SLURM_SUCCESS)
  else ret (job_ptr, SLURM_SUCCESS).

(** Modelled from the spec: [list_for_each] of [src/common/list.c], which is
    not among the sources; it applies the visitor to each element of the
    list, in order, and stops at the first element for which the visitor
    returns a negative status. *)
Fixpoint list_for_each (l : list job_record)
    (f : job_record -> M (job_record * Z)) : M (list job_record) :=
  match l with
  | [] => ret []
  | x :: rest =>
      r <- f x ;;
      if snd r <? 0 then ret (fst r :: rest)
      else
        rest' <- list_for_each rest f ;;
        ret (fst r :: rest')
  end.

(** The job list is the host's global [job_list]. *)
Definition site_factor_p_update (job_list : list job_record)
  : M (list job_record) :=
  list_for_each job_list _update.

End Plugin.

(** ** Slurm's values of the header constants

    [NICE_OFFSET], [NO_VAL], [INFINITE], [SLURM_SUCCESS], [DEBUG_FLAG_PRIO]
    and [IS_JOB_PENDING] as [slurm/slurm.h], [slurm/slurm_errno.h] and
    [src/slurmctld/slurmctld.h] define them ([DEBUG_FLAG_PRIO] is the bit of
    the Priority debug flag), and the [lround] of glibc on x86-64, which
    returns [LONG_MIN] for an infinite argument. *)

Definition slurm_h_19_05 : slurm_h := {|
  NICE_OFFSET := 0x80000000;
  NO_VAL := 0xfffffffe;
  INFINITE := 0xffffffff;
  SLURM_SUCCESS := 0;
  DEBUG_FLAG_PRIO := 0x800;
  IS_JOB_PENDING := fun job_ptr => Z.land (job_state job_ptr) 0xff =? 0;
  NICE_OFFSET_range := ltac:(unfold U32_MOD; lia);
  SLURM_SUCCESS_not_negative := ltac:(lia)
|}.

Definition libm_glibc : libm := {|
  lround_inf := 0;                     (* (uint32_t) LONG_MIN *)
  lround_inf_u32 := ltac:(unfold is_u32, U32_MOD; lia)
|}.

(** ** Reachable worlds

    The host loads the plugin, calls its entry points in any order, and
    between two calls changes whatever is its own: the configuration string,
    the debug flags, the clock, the log. *)

Inductive plugin_call :=
| call_init
| call_fini
| call_reconfig
| call_set (job_ptr : job_record)
| call_update (job_list : list job_record).

Definition run_call `{slurm_h} `{libm} (c : plugin_call) (w : world) : world :=
  match c with
  | call_init => snd (init w)
  | call_fini => snd (fini w)
  | call_reconfig => snd (site_factor_p_reconfig w)
  | call_set job_ptr => snd (site_factor_p_set job_ptr w)
  | call_update job_list => snd (site_factor_p_update job_list w)
  end.

Inductive reachable `{slurm_h} `{libm} : world -> Prop :=
| reach_loaded w : loaded w -> reachable w
| reach_call c w : reachable w -> reachable (run_call c w)
| reach_host w w' :
    reachable w -> parameters w' = parameters w -> reachable w'.

(** The documented ranges of the three parameters. *)
Definition in_range `{slurm_h} (w : world) : Prop :=
  1 <= xfactor_min_time w <= 129600 /\
  1 <= xfactor_max w <= NICE_OFFSET /\
  1 <= xfactor_weight w <= NICE_OFFSET.

(** The reading of [time(NULL)] that the next call will get. *)
Definition next_time (w : world) : Z := wall_clock w (time_calls w).

(** A world whose parameters and clock are given: the configuration string
    is absent, the debug flags are clear, every reading of the clock is
    [now], the log is empty. *)
Definition world_at (min_time max weight now : Z) : world :=
  mk_world min_time max weight None 0 (fun _ => now) 0 [].

(** [job_ptr->part_ptr = part]. *)
Definition set_part_ptr (job_ptr : job_record) (part : option part_record)
  : job_record :=
  {| details := details job_ptr;
     job_state := job_state job_ptr;
     part_ptr := part;
     site_factor := site_factor job_ptr;
     time_limit := time_limit job_ptr |}.

(** A pending job that became eligible at [accrue], with a time limit of
    [limit] minutes, no partition and a neutral site factor. *)
Definition pending_job (accrue limit : Z) : job_record :=
  mk_job_record (Some (mk_job_details accrue)) 0 None 0x80000000 limit.

(** The world in which Slurm 19.05 loads the plugin: the globals have their
    initial values, the clock reads [now], and the configuration string is
    [conf]. *)
Definition world_loaded (conf : option string) (now : Z) : world :=
  mk_world 1 0x80000000 1 conf 0 (fun _ => now) 0 [].

(** The world after [init] under the configuration
    [xfactor_min_time=1,xfactor_max=1000,xfactor_weight=65536], read at
    [now]. *)
Definition world_weight_65536 (now : Z) : world :=
  snd (@init slurm_h_19_05
         (world_loaded
            (Some "xfactor_min_time=1,xfactor_max=1000,xfactor_weight=65536")
            now)).

(** The calls to [error] that [_parse_parameters] can make. *)
Definition error_call (fmt : string) : log_call :=
  mk_log_call LOG_ERROR fmt [arg_s plugin_type].

(** A running job ([JOB_RUNNING] is 1), otherwise as [pending_job]. *)
Definition running_job (accrue limit : Z) : job_record :=
  mk_job_record (Some (mk_job_details accrue)) 1 None 0x80000000 limit.

(** [atoi(tmp_ptr + 17)] and its like, as a [uint32_t]: the value read
    behind the first occurrence of [key] in [params], the offset that the
    plugin adds to the pointer being the length of the key (17, 12 and 15 for
    the three keys); nothing when the key does not occur. *)
Definition token_value (params key : string) : option Z :=
  match xstrcasestr params key with
  | Some tmp_ptr => Some (u32 (atoi (ptr_add tmp_ptr (String.length key))))
  | None => None
  end.

(** The world in which a run of [_parse_parameters] stops: the parameters as
    assigned so far, the calls to [error] added to the log, what belongs to
    the host as it was. *)
Definition parse_stop (w : world) (min_time max weight : Z)
    (errs : list log_call) : world :=
  mk_world min_time max weight
    (priority_site_factor_params w) (debug_flags w)
    (wall_clock w) (time_calls w) (log w ++ errs).

(** The line that [cleanup] logs when the Priority debug flag is set. *)
Definition parameters_debug_call (w : world) : log_call :=
  mk_log_call LOG_DEBUG
    "%s: xfactor_min_time=%u, xfactor_max=%u, xfactor_weight=%u"
    [arg_s plugin_type; arg_u (xfactor_min_time w); arg_u (xfactor_max w);
     arg_u (xfactor_weight w)].

(** The line that [_calc_factor] logs when the Priority debug flag is set. *)
Definition factor_debug_call (factor : Z) : log_call :=
  mk_log_call LOG_DEBUG "%s: weightened site_factor=%u"
    [arg_s plugin_type; arg_u factor].

(** The number of pending jobs of a list. *)
Definition count_pending `{slurm_h} (job_list : list job_record) : nat :=
  List.length (filter IS_JOB_PENDING job_list).

(** A world as [world_at], with the host's configuration string and debug
    flags given. *)
Definition world_with (min_time max weight : Z) (conf : option string)
    (flags now : Z) : world :=
  mk_world min_time max weight conf flags (fun _ => now) 0 [].

(** * Properties *)

(** ** Machine integers *)

Lemma u32_range z : is_u32 (u32 z).
Proof. unfold is_u32, u32, U32_MOD. apply Z.mod_pos_bound. lia. Qed.

Lemma u32_id z : is_u32 z -> u32 z = z.
Proof. unfold is_u32, u32. intros Hz. now apply Z.mod_small. Qed.

Lemma u32_le z : 0 <= z -> u32 z <= z.
Proof. unfold u32, U32_MOD. intros Hz. apply Z.mod_le; lia. Qed.

Lemma MIN_le_r a b : MIN a b <= b.
Proof. unfold MIN. destruct (Z.ltb_spec a b); lia. Qed.

Lemma MIN_min a b : MIN a b = Z.min a b.
Proof. unfold MIN. destruct (Z.ltb_spec a b); lia. Qed.

Lemma MAX_max a b : MAX a b = Z.max a b.
Proof. unfold MAX. destruct (Z.gtb_spec a b); lia. Qed.

Lemma MIN_nonneg a b : 0 <= a -> 0 <= b -> 0 <= MIN a b.
Proof. rewrite MIN_min. lia. Qed.

Lemma mul_u32_exact a b : 0 <= a -> 0 <= b -> a * b < U32_MOD ->
  mul_u32 a b = a * b.
Proof.
  intros Ha Hb Hab. apply u32_id. split; [|assumption].
  now apply Z.mul_nonneg_nonneg.
Qed.

Lemma add_u32_exact a b : 0 <= a -> 0 <= b -> a + b < U32_MOD ->
  add_u32 a b = a + b.
Proof. intros Ha Hb Hab. apply u32_id. split; [lia | assumption]. Qed.

(** [lround_quotient] is the nearest integer, ties upwards. *)
Lemma lround_quotient_nearest `{libm} delta tmp_time :
  is_u32 delta -> 0 < tmp_time ->
  let r := lround_quotient delta tmp_time in
  2 * tmp_time * r - tmp_time <= 2 * delta < 2 * tmp_time * r + tmp_time.
Proof.
  intros Hd Ht. unfold lround_quotient.
  destruct (Z.eqb_spec tmp_time 0) as [->|_]; [lia|].
  assert (Hq : 0 <= (2 * delta + tmp_time) / (2 * tmp_time) < delta + 1).
  { unfold is_u32 in Hd. split.
    - apply Z.div_pos; lia.
    - apply Z.div_lt_upper_bound; nia. }
  rewrite u32_id by (unfold is_u32 in *; lia).
  pose proof (Z.div_mod (2 * delta + tmp_time) (2 * tmp_time)) as Hdm.
  pose proof (Z.mod_pos_bound (2 * delta + tmp_time) (2 * tmp_time)) as Hm.
  cbv zeta. lia.
Qed.

Lemma lround_quotient_u32 `{libm} delta tmp_time :
  is_u32 (lround_quotient delta tmp_time).
Proof.
  unfold lround_quotient. destruct (tmp_time =? 0).
  - apply lround_inf_u32.
  - apply u32_range.
Qed.

Lemma lround_quotient_mono `{libm} d1 d2 tmp_time :
  is_u32 d1 -> is_u32 d2 -> 0 < tmp_time -> d1 <= d2 ->
  lround_quotient d1 tmp_time <= lround_quotient d2 tmp_time.
Proof.
  intros H1 H2 Ht Hle. unfold lround_quotient.
  destruct (Z.eqb_spec tmp_time 0) as [->|_]; [lia|].
  assert (Hb : forall d, is_u32 d ->
             is_u32 ((2 * d + tmp_time) / (2 * tmp_time))).
  { intros d Hd. unfold is_u32 in *. split.
    - apply Z.div_pos; lia.
    - apply Z.lt_le_trans with (d + 1); [|lia].
      apply Z.div_lt_upper_bound; nia. }
  rewrite !u32_id by auto.
  apply Z.div_le_mono; lia.
Qed.

(** ** Running the monad *)

Ltac run_monad :=
  cbv beta iota zeta delta
    [bind ret gets error debug log_msg time_NULL
     set_xfactor_min_time set_xfactor_max set_xfactor_weight
     slurm_get_priority_site_factor_params slurm_get_debug_flags
     fst snd parameters
     xfactor_min_time xfactor_max xfactor_weight
     priority_site_factor_params debug_flags wall_clock time_calls log].

(** Take the conditional or the match at the head of the computation. *)
Ltac run_branch :=
  match goal with
  | |- context [match ?x with _ => _ end] =>
      lazymatch x with
      | context [match _ with _ => _ end] => fail
      | _ => destruct x eqn:?
      end
  end.

(** ** [_calc_factor] *)

Section Calc.

Context `{slurm_h} `{libm}.

(** The value of [_calc_factor] where the division is reached. *)
Lemma _calc_factor_value job_ptr det w :
  details job_ptr = Some det ->
  xfactor_weight w <> 0 -> accrue_time det <> 0 ->
  calc_delta (next_time w) (accrue_time det) <> 0 ->
  fst (_calc_factor job_ptr w) =
  u32 (MIN (calc_weightened_factor
              (lround_quotient (calc_delta (next_time w) (accrue_time det))
                 (calc_tmp_time job_ptr (xfactor_min_time w)))
              (xfactor_weight w))
         (xfactor_max w)).
Proof.
  intros Hdet Hw Ha Hd. unfold _calc_factor, next_time in *.
  destruct w as [mn mx wt conf flags clk n lg]. run_monad.
  cbn [xfactor_weight xfactor_min_time xfactor_max wall_clock time_calls]
    in *.
  rewrite Hdet.
  destruct (Z.eqb_spec wt 0); [contradiction|].
  destruct (Z.eqb_spec (accrue_time det) 0); [contradiction|].
  cbn [orb].
  destruct (Z.eqb_spec (calc_delta (clk n) (accrue_time det)) 0);
    [contradiction|].
  destruct (Z.land flags DEBUG_FLAG_PRIO =? 0); reflexivity.
Qed.

(** [_calc_factor] returns a [uint32_t]. *)
Lemma _calc_factor_u32 job_ptr w : is_u32 (fst (_calc_factor job_ptr w)).
Proof.
  assert (Hzero : is_u32 0) by (unfold is_u32, U32_MOD; lia).
  unfold _calc_factor. destruct w as [mn mx wt conf flags clk n lg].
  run_monad. repeat run_branch; cbn [fst]; auto using u32_range.
Qed.

(** [_calc_factor] reads the clock once, may log, and leaves the rest of the
    world as it is. *)
Lemma _calc_factor_world job_ptr w :
  let w' := snd (_calc_factor job_ptr w) in
  parameters w' = parameters w /\
  priority_site_factor_params w' = priority_site_factor_params w /\
  debug_flags w' = debug_flags w /\
  wall_clock w' = wall_clock w /\
  time_calls w' = S (time_calls w).
Proof.
  unfold _calc_factor. destruct w as [mn mx wt conf flags clk n lg].
  run_monad. repeat run_branch; cbn; auto.
Qed.

End Calc.

(** ** The early returns of [_calc_factor] *)

Section Calc_zero.

Context `{slurm_h} `{libm}.

Lemma _calc_factor_no_weight job_ptr w :
  xfactor_weight w = 0 -> fst (_calc_factor job_ptr w) = 0.
Proof.
  intros Hw. unfold _calc_factor. destruct w as [mn mx wt conf flags clk n lg].
  cbn [xfactor_weight] in Hw. subst wt. run_monad.
  destruct (details job_ptr); reflexivity.
Qed.

Lemma _calc_factor_no_details job_ptr w :
  details job_ptr = None -> fst (_calc_factor job_ptr w) = 0.
Proof.
  intros Hd. unfold _calc_factor. destruct w as [mn mx wt conf flags clk n lg].
  run_monad. rewrite Hd. reflexivity.
Qed.

Lemma _calc_factor_no_accrue job_ptr det w :
  details job_ptr = Some det -> accrue_time det = 0 ->
  fst (_calc_factor job_ptr w) = 0.
Proof.
  intros Hd Ha. unfold _calc_factor.
  destruct w as [mn mx wt conf flags clk n lg].
  run_monad. rewrite Hd, Ha. rewrite orb_true_r. reflexivity.
Qed.

Lemma _calc_factor_no_delta job_ptr det w :
  details job_ptr = Some det ->
  calc_delta (next_time w) (accrue_time det) = 0 ->
  fst (_calc_factor job_ptr w) = 0.
Proof.
  intros Hd Hz. unfold _calc_factor, next_time in *.
  destruct w as [mn mx wt conf flags clk n lg].
  cbn [wall_clock time_calls] in Hz.
  run_monad. rewrite Hd, Hz.
  destruct (_ || _); reflexivity.
Qed.

Lemma calc_delta_not_after now accrue : now <= accrue -> calc_delta now accrue = 0.
Proof. intros Hle. unfold calc_delta. destruct (Z.gtb_spec now accrue); lia. Qed.

End Calc_zero.

(** C4: [_calc_factor] returns 0 whenever the weight is zero, or the job has
    no details, or its accrue time is zero, or the clock has not passed its
    accrue time. *)
Theorem calc_factor_zero `{slurm_h} `{libm} (job_ptr : job_record) (w : world) :
  xfactor_weight w = 0 \/
  details job_ptr = None \/
  (exists det, details job_ptr = Some det /\
     (accrue_time det = 0 \/ next_time w <= accrue_time det)) ->
  fst (_calc_factor job_ptr w) = 0.
Proof.
  intros [Hw | [Hd | (det & Hd & [Ha | Hn])]].
  - now apply _calc_factor_no_weight.
  - now apply _calc_factor_no_details.
  - now apply _calc_factor_no_accrue with det.
  - apply _calc_factor_no_delta with det; [assumption|].
    now apply calc_delta_not_after.
Qed.

Lemma calc_factor_zero_witness :
  fst (@_calc_factor slurm_h_19_05 libm_glibc
         (pending_job 1000000 10) (world_at 5 100 0 1000600)) = 0 /\
  fst (@_calc_factor slurm_h_19_05 libm_glibc
         (mk_job_record None 0 None 0x80000000 10)
         (world_at 5 100 2 1000600)) = 0 /\
  fst (@_calc_factor slurm_h_19_05 libm_glibc
         (pending_job 0 10) (world_at 5 100 2 1000600)) = 0 /\
  fst (@_calc_factor slurm_h_19_05 libm_glibc
         (pending_job 1000600 10) (world_at 5 100 2 1000600)) = 0.
Proof.
  split; [|split; [|split]].
  - apply (@calc_factor_zero slurm_h_19_05 libm_glibc). left. reflexivity.
  - apply (@calc_factor_zero slurm_h_19_05 libm_glibc). right. left.
    reflexivity.
  - apply (@calc_factor_zero slurm_h_19_05 libm_glibc). right. right.
    exists (mk_job_details 0). split; [reflexivity | left; reflexivity].
  - apply (@calc_factor_zero slurm_h_19_05 libm_glibc). right. right.
    exists (mk_job_details 1000600).
    split; [reflexivity | right; unfold next_time; simpl; lia].
Defined.

(** C5: [_calc_factor] returns at most [xfactor_max], and
    [site_factor_p_set] writes at most [xfactor_max + NICE_OFFSET], the sum
    being that of the integers. *)
Theorem calc_factor_le_max `{slurm_h} `{libm} (job_ptr : job_record) (w : world) :
  world_is_u32 w ->
  fst (_calc_factor job_ptr w) <= xfactor_max w /\
  site_factor (fst (site_factor_p_set job_ptr w)) <= xfactor_max w + NICE_OFFSET.
Proof.
  intros (_ & Hmax & _).
  assert (Hle : fst (_calc_factor job_ptr w) <= xfactor_max w).
  { unfold is_u32 in Hmax. unfold _calc_factor.
    destruct w as [mn mx wt conf flags clk n lg].
    cbn [xfactor_max] in *. run_monad.
    repeat run_branch; cbn [fst]; try lia.
    all: etransitivity; [apply u32_le | apply MIN_le_r].
    all: apply MIN_nonneg; [apply u32_range | lia]. }
  split; [exact Hle|].
  pose proof (_calc_factor_u32 job_ptr w) as Hu. unfold is_u32 in Hu.
  pose proof NICE_OFFSET_range as Hn.
  unfold site_factor_p_set. unfold bind, ret.
  destruct (_calc_factor job_ptr w) as [factor w'].
  cbn [fst snd site_factor set_site_factor] in *.
  unfold add_u32. pose proof (u32_le (factor + NICE_OFFSET)). lia.
Qed.

Lemma calc_factor_le_max_witness :
  fst (@_calc_factor slurm_h_19_05 libm_glibc
         (pending_job 1000000 10) (world_at 5 100 2 1000600)) <= 100 /\
  site_factor (fst (@site_factor_p_set slurm_h_19_05 libm_glibc
         (pending_job 1000000 10) (world_at 5 100 2 1000600)))
    <= 100 + 0x80000000.
Proof.
  apply (@calc_factor_le_max slurm_h_19_05 libm_glibc
           (pending_job 1000000 10) (world_at 5 100 2 1000600)).
  unfold world_is_u32, is_u32, U32_MOD. simpl. lia.
Defined.

(** ** The arithmetic of [_calc_factor] *)

Section Calc_arith.

Context `{slurm_h} `{libm}.

Lemma calc_delta_u32 now accrue : is_u32 (calc_delta now accrue).
Proof.
  unfold calc_delta. destruct (now >? accrue); [apply u32_range|].
  unfold is_u32, U32_MOD. lia.
Qed.

Lemma calc_delta_exact now accrue :
  accrue <= now -> now - accrue < U32_MOD -> calc_delta now accrue = now - accrue.
Proof.
  intros Hle Hlt. unfold calc_delta. destruct (Z.gtb_spec now accrue).
  - apply u32_id. unfold is_u32. lia.
  - lia.
Qed.

Lemma calc_delta_mono now1 now2 accrue :
  now1 <= now2 -> now2 - accrue < U32_MOD ->
  calc_delta now1 accrue <= calc_delta now2 accrue.
Proof.
  intros Hle Hlt. destruct (Z.le_gt_cases now1 accrue) as [Hb | Ha].
  - rewrite (calc_delta_not_after now1) by assumption.
    apply (calc_delta_u32 now2 accrue).
  - rewrite !calc_delta_exact by lia. lia.
Qed.

Lemma calc_tmp_time_ge job_ptr min_time :
  min_time <= calc_tmp_time job_ptr min_time.
Proof. unfold calc_tmp_time. rewrite MAX_max. lia. Qed.

(** The product stored in [weightened_factor] is that of the integers reduced
    modulo [2^32]; it is exact when that product fits 32 bits. *)
Lemma calc_weightened_factor_mod factor weight :
  calc_weightened_factor factor weight = (factor * weight) mod 2 ^ 32.
Proof. reflexivity. Qed.

Lemma calc_weightened_factor_exact factor weight :
  0 <= factor -> 0 <= weight -> factor * weight < U32_MOD ->
  calc_weightened_factor factor weight = factor * weight.
Proof. apply mul_u32_exact. Qed.

(** Where the product of the later call fits 32 bits and the elapsed time
    fits [delta], a later reading of the clock does not lower the factor. *)
Lemma _calc_factor_monotone job_ptr w1 w2 :
  parameters w1 = parameters w2 ->
  world_is_u32 w2 -> 1 <= xfactor_min_time w2 ->
  next_time w1 <= next_time w2 ->
  (forall det, details job_ptr = Some det ->
     next_time w2 - accrue_time det < U32_MOD /\
     lround_quotient (calc_delta (next_time w2) (accrue_time det))
       (calc_tmp_time job_ptr (xfactor_min_time w2)) * xfactor_weight w2
     < U32_MOD) ->
  fst (_calc_factor job_ptr w1) <= fst (_calc_factor job_ptr w2).
Proof.
  intros Hp (Hmn & Hmx & Hwt) Hmin Hnow Hfit.
  unfold parameters in Hp. injection Hp as Hp1 Hp2 Hp3.
  destruct (details job_ptr) as [det|] eqn:Hdet.
  2:{ rewrite !_calc_factor_no_details by assumption. lia. }
  destruct (Hfit det eq_refl) as [Hspan Hprod]. clear Hfit.
  destruct (Z.eq_dec (xfactor_weight w2) 0) as [Hw0 | Hw0].
  { rewrite !_calc_factor_no_weight by congruence. lia. }
  destruct (Z.eq_dec (accrue_time det) 0) as [Ha0 | Ha0].
  { rewrite !(_calc_factor_no_accrue job_ptr det) by assumption. lia. }
  pose proof (calc_delta_mono _ _ (accrue_time det) Hnow Hspan) as Hd.
  pose proof (calc_delta_u32 (next_time w1) (accrue_time det)) as Hd1.
  pose proof (calc_delta_u32 (next_time w2) (accrue_time det)) as Hd2.
  destruct (Z.eq_dec (calc_delta (next_time w1) (accrue_time det)) 0)
    as [Hz | Hz].
  { rewrite (_calc_factor_no_delta job_ptr det w1) by assumption.
    apply (_calc_factor_u32 job_ptr w2). }
  assert (Hz2 : calc_delta (next_time w2) (accrue_time det) <> 0)
    by (unfold is_u32 in *; lia).
  rewrite (_calc_factor_value job_ptr det w1) by congruence.
  rewrite (_calc_factor_value job_ptr det w2) by congruence.
  rewrite Hp1, Hp2, Hp3.
  pose proof (calc_tmp_time_ge job_ptr (xfactor_min_time w2)) as Hge.
  set (tmp_time := calc_tmp_time job_ptr (xfactor_min_time w2)) in *.
  assert (Ht : 0 < tmp_time) by lia.
  pose proof (lround_quotient_mono _ _ tmp_time Hd1 Hd2 Ht Hd) as Hf.
  pose proof (lround_quotient_u32
                (calc_delta (next_time w1) (accrue_time det)) tmp_time) as Hf1.
  set (f1 := lround_quotient
               (calc_delta (next_time w1) (accrue_time det)) tmp_time) in *.
  set (f2 := lround_quotient
               (calc_delta (next_time w2) (accrue_time det)) tmp_time) in *.
  unfold is_u32 in *.
  assert (Hprod1 : f1 * xfactor_weight w2 <= f2 * xfactor_weight w2)
    by (apply Z.mul_le_mono_nonneg_r; lia).
  assert (Hnn : 0 <= f1 * xfactor_weight w2)
    by (apply Z.mul_nonneg_nonneg; lia).
  rewrite !calc_weightened_factor_exact by lia.
  rewrite !MIN_min.
  rewrite !u32_id by (unfold is_u32; lia).
  lia.
Qed.

End Calc_arith.

(** C1: the product [factor * xfactor_weight] is computed on 32 bits and
    wraps before it is stored in the 64-bit [weightened_factor].  Under the
    configuration [xfactor_min_time=1,xfactor_max=1000,xfactor_weight=65536],
    for a job with a limit of one minute that became eligible 65536 seconds
    ago, the rounded quotient is 65536, the product of the integers is
    [2^32], the value compared with [xfactor_max] is 0, and [_calc_factor]
    returns 0 where the exact product would be clamped to 1000. *)
Theorem weightened_factor_wraps :
  let w := world_weight_65536 1065536 in
  let job_ptr := pending_job 1000000 1 in
  @reachable slurm_h_19_05 libm_glibc w /\
  parameters w = (1, 1000, 65536) /\
  @lround_quotient libm_glibc
    (calc_delta (next_time w) 1000000)
    (@calc_tmp_time slurm_h_19_05 job_ptr (xfactor_min_time w)) = 65536 /\
  65536 * xfactor_weight w = 2 ^ 32 /\
  calc_weightened_factor 65536 (xfactor_weight w) = 0 /\
  fst (@_calc_factor slurm_h_19_05 libm_glibc job_ptr w) = 0 /\
  MIN (65536 * xfactor_weight w) (xfactor_max w) = 1000.
Proof.
  cbv zeta. split.
  - apply (@reach_call slurm_h_19_05 libm_glibc call_init).
    apply reach_loaded. reflexivity.
  - repeat (split; [vm_compute; reflexivity|]). vm_compute. reflexivity.
Qed.

(** C2: one second more of eligible time lowers the factor from 1000 to 0,
    because the 32-bit product wraps.  Same configuration and job as for C1,
    the clock read 65535 and 65536 seconds after the accrue time. *)
Theorem calc_factor_not_monotone :
  let job_ptr := pending_job 1000000 1 in
  let w1 := world_weight_65536 1065535 in
  let w2 := world_weight_65536 1065536 in
  parameters w1 = parameters w2 /\
  next_time w1 - 1000000 = 65535 /\
  next_time w2 - 1000000 = 65536 /\
  fst (@_calc_factor slurm_h_19_05 libm_glibc job_ptr w1) = 1000 /\
  fst (@_calc_factor slurm_h_19_05 libm_glibc job_ptr w2) = 0.
Proof.
  cbv zeta. repeat (split; [vm_compute; reflexivity|]).
  vm_compute. reflexivity.
Qed.

(** C6: where [_calc_factor] divides, the divisor is the larger of
    [xfactor_min_time] and a base limit, which is [time_limit] when that is
    not [NO_VAL], else the partition's [max_time] when that is not
    [INFINITE], else 1; so the divisor is at least [xfactor_min_time]. *)
Theorem effective_time_limit `{slurm_h} `{libm}
    (job_ptr : job_record) (det : job_details) (w : world) :
  details job_ptr = Some det ->
  xfactor_weight w <> 0 -> accrue_time det <> 0 ->
  calc_delta (next_time w) (accrue_time det) <> 0 ->
  exists base tmp_time : Z,
    (time_limit job_ptr <> NO_VAL -> base = time_limit job_ptr) /\
    (time_limit job_ptr = NO_VAL ->
     forall part, part_ptr job_ptr = Some part ->
       max_time part <> INFINITE -> base = max_time part) /\
    (time_limit job_ptr = NO_VAL ->
     part_ptr job_ptr = None \/
     (exists part, part_ptr job_ptr = Some part /\ max_time part = INFINITE) ->
     base = 1) /\
    tmp_time = Z.max base (xfactor_min_time w) /\
    xfactor_min_time w <= tmp_time /\
    fst (_calc_factor job_ptr w) =
    u32 (MIN (mul_u32
                (lround_quotient
                   (calc_delta (next_time w) (accrue_time det)) tmp_time)
                (xfactor_weight w))
           (xfactor_max w)).
Proof.
  intros Hdet Hw Ha Hd.
  exists (calc_time_limit job_ptr),
         (calc_tmp_time job_ptr (xfactor_min_time w)).
  split; [|split; [|split; [|split; [|split]]]].
  - intros Hset. unfold calc_time_limit.
    destruct (Z.eqb_spec (time_limit job_ptr) NO_VAL); [contradiction|].
    reflexivity.
  - intros Hunset part Hpart Hbounded. unfold calc_time_limit.
    rewrite Hunset, Z.eqb_refl, Hpart. cbn [negb].
    destruct (Z.eqb_spec (max_time part) INFINITE); [contradiction|].
    reflexivity.
  - intros Hunset Hnone. unfold calc_time_limit.
    rewrite Hunset, Z.eqb_refl. cbn [negb].
    destruct Hnone as [Hnone | (part & Hpart & Hinf)].
    + rewrite Hnone. reflexivity.
    + rewrite Hpart, Hinf, Z.eqb_refl. reflexivity.
  - unfold calc_tmp_time. apply MAX_max.
  - apply calc_tmp_time_ge.
  - now apply _calc_factor_value.
Qed.

Lemma effective_time_limit_witness :
  let job_ptr := pending_job 1000000 10 in
  let w := world_at 5 100 2 1000600 in
  exists base tmp_time : Z,
    (time_limit job_ptr <> @NO_VAL slurm_h_19_05 -> base = time_limit job_ptr) /\
    (time_limit job_ptr = @NO_VAL slurm_h_19_05 ->
     forall part, part_ptr job_ptr = Some part ->
       max_time part <> @INFINITE slurm_h_19_05 -> base = max_time part) /\
    (time_limit job_ptr = @NO_VAL slurm_h_19_05 ->
     part_ptr job_ptr = None \/
     (exists part, part_ptr job_ptr = Some part /\
                   max_time part = @INFINITE slurm_h_19_05) ->
     base = 1) /\
    tmp_time = Z.max base (xfactor_min_time w) /\
    xfactor_min_time w <= tmp_time /\
    fst (@_calc_factor slurm_h_19_05 libm_glibc job_ptr w) =
    u32 (MIN (mul_u32
                (@lround_quotient libm_glibc
                   (calc_delta (next_time w) 1000000) tmp_time)
                (xfactor_weight w))
           (xfactor_max w)).
Proof.
  apply (@effective_time_limit slurm_h_19_05 libm_glibc
           (pending_job 1000000 10) (mk_job_details 1000000)
           (world_at 5 100 2 1000600)).
  - reflexivity.
  - simpl. lia.
  - simpl. lia.
  - vm_compute. discriminate.
Defined.



(** ** [_parse_parameters] *)

Lemma range_check_false v hi :
  (v <? 1) || (v >? hi) = false -> 1 <= v <= hi.
Proof.
  intros Hc. apply orb_false_elim in Hc as [Hlo Hhi].
  apply Z.ltb_ge in Hlo. rewrite Z.gtb_ltb in Hhi. apply Z.ltb_ge in Hhi.
  lia.
Qed.

Lemma range_check_true v hi :
  1 <= v <= hi -> (v <? 1) || (v >? hi) = false.
Proof.
  intros Hr. apply orb_false_intro.
  - apply Z.ltb_ge. lia.
  - rewrite Z.gtb_ltb. apply Z.ltb_ge. lia.
Qed.

Section Parse.

Context `{slurm_h}.

(** The code at [cleanup] may log and changes nothing else. *)
Lemma cleanup_world w :
  let w' := snd (cleanup w) in
  parameters w' = parameters w /\
  priority_site_factor_params w' = priority_site_factor_params w /\
  debug_flags w' = debug_flags w /\
  wall_clock w' = wall_clock w /\
  time_calls w' = time_calls w /\
  exists dbg, log w' = (log w ++ dbg)%list /\
              forall c, In c dbg -> level c = LOG_DEBUG.
Proof.
  unfold cleanup. destruct w as [mn mx wt conf flags clk n lg]. run_monad.
  destruct (Z.land flags DEBUG_FLAG_PRIO =? 0); cbn;
    repeat (split; [reflexivity|]).
  - exists []. rewrite app_nil_r. split; [reflexivity | intros c []].
  - eexists. split; [reflexivity|].
    intros c [<- | []]. reflexivity.
Qed.

(** Each parameter that [_parse_parameters] assigns has passed its range
    check. *)
Lemma _parse_parameters_in_range w :
  in_range w -> in_range (snd (_parse_parameters w)).
Proof.
  unfold in_range, _parse_parameters, cleanup.
  destruct w as [mn mx wt conf flags clk n lg]. run_monad.
  intros Hr.
  repeat run_branch; cbn;
    repeat match goal with
           | Hc : (_ <? 1) || (_ >? _) = false |- _ =>
               apply range_check_false in Hc
           end; lia.
Qed.

(** Without a configuration string, [_parse_parameters] logs one error and
    changes nothing else. *)
Lemma _parse_parameters_absent w :
  priority_site_factor_params w = None ->
  let w' := snd (_parse_parameters w) in
  parameters w' = parameters w /\
  log w' = (log w ++ [mk_log_call LOG_ERROR
                        "%s: PrioritySiteFactorParameters not set."
                        [arg_s plugin_type]])%list.
Proof.
  unfold _parse_parameters.
  destruct w as [mn mx wt conf flags clk n lg].
  cbn [priority_site_factor_params]. intros ->. run_monad.
  split; reflexivity.
Qed.

End Parse.

(** The other entry points do not assign the parameters. *)
Section Frame.

Context `{slurm_h} `{libm}.

Lemma fini_parameters w : parameters (snd (fini w)) = parameters w.
Proof. destruct w. reflexivity. Qed.

Lemma site_factor_p_set_parameters job_ptr w :
  parameters (snd (site_factor_p_set job_ptr w)) = parameters w.
Proof.
  unfold site_factor_p_set, bind, ret.
  pose proof (_calc_factor_world job_ptr w) as [Hp _].
  destruct (_calc_factor job_ptr w) as [factor w']. exact Hp.
Qed.

Lemma _update_parameters x w :
  parameters (snd (_update x w)) = parameters w.
Proof.
  unfold _update. destruct (IS_JOB_PENDING x); [|reflexivity].
  unfold bind, ret.
  pose proof (_calc_factor_world x w) as [Hp _].
  destruct (_calc_factor x w) as [factor w']. exact Hp.
Qed.

(** The visitor [_update] never stops the iteration. *)
Lemma _update_status x w : snd (fst (_update x w)) = SLURM_SUCCESS.
Proof.
  unfold _update. destruct (IS_JOB_PENDING x); [|reflexivity].
  unfold bind, ret. destruct (_calc_factor x w). reflexivity.
Qed.

End Frame.

(** The run of [_parse_parameters] that stops at the missing weight. *)
Lemma _parse_parameters_no_weight `{slurm_h}
    (w : world) (params tmp_min tmp_max : string) :
  priority_site_factor_params w = Some params ->
  xstrcasestr params "xfactor_min_time=" = Some tmp_min ->
  1 <= u32 (atoi (ptr_add tmp_min 17)) <= 129600 ->
  xstrcasestr params "xfactor_max=" = Some tmp_max ->
  1 <= u32 (atoi (ptr_add tmp_max 12)) <= NICE_OFFSET ->
  xstrcasestr params "xfactor_weight=" = None ->
  _parse_parameters w =
  cleanup
    (mk_world (u32 (atoi (ptr_add tmp_min 17)))
       (u32 (atoi (ptr_add tmp_max 12))) (xfactor_weight w)
       (priority_site_factor_params w) (debug_flags w)
       (wall_clock w) (time_calls w)
       (log w ++ [error_call "%s: xfactor_weight not configured."])).
Proof.
  intros Hconf Hmin Hmin_ok Hmax Hmax_ok Hweight.
  unfold _parse_parameters.
  destruct w as [mn mx wt conf flags clk n lg].
  cbn [priority_site_factor_params] in Hconf. subst conf.
  run_monad. rewrite Hmin.
  rewrite (range_check_true _ _ Hmin_ok). cbv beta iota.
  rewrite Hmax.
  rewrite (range_check_true _ _ Hmax_ok). cbv beta iota.
  rewrite Hweight. reflexivity.
Qed.


(** C3: with valid [xfactor_min_time] and [xfactor_max] tokens and no
    [xfactor_weight] token, [_parse_parameters] assigns the first two
    parameters, keeps the weight, and logs that the weight is not
    configured. *)
Theorem parse_without_weight `{slurm_h}
    (w : world) (params tmp_min tmp_max : string) :
  priority_site_factor_params w = Some params ->
  xstrcasestr params "xfactor_min_time=" = Some tmp_min ->
  1 <= u32 (atoi (ptr_add tmp_min 17)) <= 129600 ->
  xstrcasestr params "xfactor_max=" = Some tmp_max ->
  1 <= u32 (atoi (ptr_add tmp_max 12)) <= NICE_OFFSET ->
  xstrcasestr params "xfactor_weight=" = None ->
  let w' := snd (_parse_parameters w) in
  xfactor_min_time w' = u32 (atoi (ptr_add tmp_min 17)) /\
  xfactor_max w' = u32 (atoi (ptr_add tmp_max 12)) /\
  xfactor_weight w' = xfactor_weight w /\
  exists dbg,
    log w' = (log w ++
              error_call "%s: xfactor_weight not configured." :: dbg)%list /\
    forall c, In c dbg -> level c = LOG_DEBUG.
Proof.
  intros Hconf Hmin Hmin_ok Hmax Hmax_ok Hweight.
  rewrite (_parse_parameters_no_weight w params tmp_min tmp_max)
    by assumption.
  match goal with
  | |- context [cleanup ?w1] =>
      pose proof (cleanup_world w1)
        as (Hp & _ & _ & _ & _ & dbg & Hlog & Hdbg)
  end.
  cbv zeta in *. unfold parameters in Hp. injection Hp as Hp1 Hp2 Hp3.
  rewrite Hp1, Hp2, Hp3, Hlog.
  cbn [xfactor_min_time xfactor_max xfactor_weight log].
  repeat (split; [reflexivity|]).
  exists dbg. split; [|exact Hdbg].
  rewrite <- app_assoc. reflexivity.
Qed.

Lemma parse_without_weight_witness :
  let w := world_loaded (Some "xfactor_min_time=5,xfactor_max=100") 1000600 in
  let w' := snd (@_parse_parameters slurm_h_19_05 w) in
  xfactor_min_time w' = u32 (atoi (ptr_add "xfactor_min_time=5,xfactor_max=100" 17)) /\
  xfactor_max w' = u32 (atoi (ptr_add "xfactor_max=100" 12)) /\
  xfactor_weight w' = xfactor_weight w /\
  exists dbg,
    log w' = (log w ++
              error_call "%s: xfactor_weight not configured." :: dbg)%list /\
    forall c, In c dbg -> level c = LOG_DEBUG.
Proof.
  apply (@parse_without_weight slurm_h_19_05
           (world_loaded (Some "xfactor_min_time=5,xfactor_max=100") 1000600)
           "xfactor_min_time=5,xfactor_max=100"
           "xfactor_min_time=5,xfactor_max=100"
           "xfactor_max=100").
  - reflexivity.
  - reflexivity.
  - vm_compute. split; discriminate.
  - reflexivity.
  - vm_compute. split; discriminate.
  - reflexivity.
Defined.

(** C8: [init] returns [SLURM_SUCCESS] and [site_factor_p_reconfig] returns,
    whatever the configuration string; without a configuration string both
    leave the three parameters as they are. *)
Theorem init_reconfig_succeed `{slurm_h} (w : world) :
  fst (init w) = SLURM_SUCCESS /\
  fst (site_factor_p_reconfig w) = tt /\
  (priority_site_factor_params w = None ->
   parameters (snd (init w)) = parameters w /\
   parameters (snd (site_factor_p_reconfig w)) = parameters w).
Proof.
  split; [|split].
  - unfold init, bind, ret.
    destruct (debug _ _ w) as [[] w1].
    destruct (_parse_parameters w1) as [[] w2]. reflexivity.
  - destruct (fst (site_factor_p_reconfig w)). reflexivity.
  - intros Hnone. split.
    + unfold init, bind, ret.
      destruct w as [mn mx wt conf flags clk n lg].
      cbn [priority_site_factor_params] in Hnone. subst conf.
      reflexivity.
    + unfold site_factor_p_reconfig.
      now apply _parse_parameters_absent.
Qed.

Lemma init_reconfig_succeed_witness :
  let w := world_loaded None 1000600 in
  fst (@init slurm_h_19_05 w) = 0 /\
  fst (@site_factor_p_reconfig slurm_h_19_05 w) = tt /\
  (priority_site_factor_params w = None ->
   parameters (snd (@init slurm_h_19_05 w)) = parameters w /\
   parameters (snd (@site_factor_p_reconfig slurm_h_19_05 w)) = parameters w).
Proof.
  exact (@init_reconfig_succeed slurm_h_19_05 (world_loaded None 1000600)).
Defined.

(** ** The bulk update *)

Section Update.

Context `{slurm_h} `{libm}.

(** What [_update] leaves in the job record. *)
Lemma _update_job x w :
  fst (fst (_update x w)) =
  if IS_JOB_PENDING x
  then set_site_factor x (add_u32 (fst (_calc_factor x w)) NICE_OFFSET)
  else x.
Proof.
  unfold _update. destruct (IS_JOB_PENDING x); [|reflexivity].
  unfold bind, ret. destruct (_calc_factor x w). reflexivity.
Qed.

(** The iteration visits the head and goes on with the tail. *)
Lemma site_factor_p_update_cons x rest w :
  site_factor_p_update (x :: rest) w =
  (fst (fst (_update x w))
     :: fst (site_factor_p_update rest (snd (_update x w))),
   snd (site_factor_p_update rest (snd (_update x w)))).
Proof.
  unfold site_factor_p_update. cbn [list_for_each]. unfold bind, ret.
  pose proof (_update_status x w) as Hs.
  pose proof SLURM_SUCCESS_not_negative as Hnn.
  destruct (_update x w) as [[x' status] w1]. cbn [fst snd] in *.
  destruct (Z.ltb_spec status 0); [lia|].
  destruct (list_for_each rest _update w1). reflexivity.
Qed.

Lemma site_factor_p_update_parameters job_list w :
  parameters (snd (site_factor_p_update job_list w)) = parameters w.
Proof.
  revert w. induction job_list as [|x rest IH]; intros w.
  - reflexivity.
  - rewrite site_factor_p_update_cons. cbn [snd].
    rewrite IH. apply _update_parameters.
Qed.

Lemma site_factor_p_update_length job_list w :
  List.length (fst (site_factor_p_update job_list w)) = List.length job_list.
Proof.
  revert w. induction job_list as [|x rest IH]; intros w.
  - reflexivity.
  - rewrite site_factor_p_update_cons. cbn [fst List.length].
    now rewrite IH.
Qed.

(** The record at position [i] after the update is the one [_update] makes
    of the record at position [i], in the world that the visits of the
    records before it have left. *)
Lemma site_factor_p_update_nth job_list w i job_ptr :
  nth_error job_list i = Some job_ptr ->
  nth_error (fst (site_factor_p_update job_list w)) i =
  Some (fst (fst (_update job_ptr
                    (snd (site_factor_p_update (firstn i job_list) w))))).
Proof.
  revert w i. induction job_list as [|x rest IH]; intros w i Hnth.
  - destruct i; discriminate.
  - rewrite site_factor_p_update_cons. destruct i as [|i].
    + cbn in Hnth. injection Hnth as ->. reflexivity.
    + cbn [nth_error firstn fst] in *.
      rewrite site_factor_p_update_cons. cbn [snd].
      now apply IH.
Qed.

End Update.

(** X24: the bulk update leaves the list as long as it was; a job that is
    not pending keeps its record, and so its site factor; a pending job gets,
    as its site factor, the 32-bit sum of [NICE_OFFSET] and the factor that
    [_calc_factor] returns for it when the iteration reaches it, with the
    parameters of the call.  That sum is the sum of the integers as long as
    it fits 32 bits. *)
Theorem update_pending_only `{slurm_h} `{libm}
    (job_list : list job_record) (w : world) (i : nat)
    (job_ptr : job_record) :
  nth_error job_list i = Some job_ptr ->
  let w_i := snd (site_factor_p_update (firstn i job_list) w) in
  let factor := fst (_calc_factor job_ptr w_i) in
  let job_list' := fst (site_factor_p_update job_list w) in
  List.length job_list' = List.length job_list /\
  parameters w_i = parameters w /\
  (IS_JOB_PENDING job_ptr = false -> nth_error job_list' i = Some job_ptr) /\
  (IS_JOB_PENDING job_ptr = true ->
   nth_error job_list' i =
   Some (set_site_factor job_ptr (add_u32 factor NICE_OFFSET)) /\
   (factor + NICE_OFFSET < U32_MOD ->
    add_u32 factor NICE_OFFSET = factor + NICE_OFFSET)).
Proof.
  intros Hnth. cbv zeta.
  split; [apply site_factor_p_update_length|].
  split; [apply site_factor_p_update_parameters|].
  rewrite (site_factor_p_update_nth job_list w i job_ptr Hnth).
  rewrite _update_job.
  split; intros Hpending; rewrite Hpending; [reflexivity|].
  split; [reflexivity|].
  intros Hfit. apply add_u32_exact; [|pose proof NICE_OFFSET_range; lia|lia].
  apply (_calc_factor_u32 job_ptr).
Qed.

Lemma update_pending_only_witness :
  let job_list := [pending_job 1000000 10; running_job 1000000 10] in
  let w := world_at 5 100 2 1000600 in
  let job_list' :=
    fst (@site_factor_p_update slurm_h_19_05 libm_glibc job_list w) in
  (let w_i := snd (@site_factor_p_update slurm_h_19_05 libm_glibc
                     (firstn 0 job_list) w) in
   let factor := fst (@_calc_factor slurm_h_19_05 libm_glibc
                        (pending_job 1000000 10) w_i) in
   List.length job_list' = List.length job_list /\
   parameters w_i = parameters w /\
   (@IS_JOB_PENDING slurm_h_19_05 (pending_job 1000000 10) = false ->
    nth_error job_list' 0 = Some (pending_job 1000000 10)) /\
   (@IS_JOB_PENDING slurm_h_19_05 (pending_job 1000000 10) = true ->
    nth_error job_list' 0 =
    Some (set_site_factor (pending_job 1000000 10)
            (add_u32 factor 0x80000000)) /\
    (factor + 0x80000000 < U32_MOD ->
     add_u32 factor 0x80000000 = factor + 0x80000000))) /\
  (let w_i := snd (@site_factor_p_update slurm_h_19_05 libm_glibc
                     (firstn 1 job_list) w) in
   let factor := fst (@_calc_factor slurm_h_19_05 libm_glibc
                        (running_job 1000000 10) w_i) in
   List.length job_list' = List.length job_list /\
   parameters w_i = parameters w /\
   (@IS_JOB_PENDING slurm_h_19_05 (running_job 1000000 10) = false ->
    nth_error job_list' 1 = Some (running_job 1000000 10)) /\
   (@IS_JOB_PENDING slurm_h_19_05 (running_job 1000000 10) = true ->
    nth_error job_list' 1 =
    Some (set_site_factor (running_job 1000000 10)
            (add_u32 factor 0x80000000)) /\
    (factor + 0x80000000 < U32_MOD ->
     add_u32 factor 0x80000000 = factor + 0x80000000))).
Proof.
  split.
  - apply (@update_pending_only slurm_h_19_05 libm_glibc
             [pending_job 1000000 10; running_job 1000000 10]
             (world_at 5 100 2 1000600) 0%nat (pending_job 1000000 10)).
    reflexivity.
  - apply (@update_pending_only slurm_h_19_05 libm_glibc
             [pending_job 1000000 10; running_job 1000000 10]
             (world_at 5 100 2 1000600) 1%nat (running_job 1000000 10)).
    reflexivity.
Defined.

(** C7: the bulk update does not write [factor + NICE_OFFSET] into every
    pending job.  Under the configuration
    [xfactor_min_time=1,xfactor_max=2147483648,xfactor_weight=1000000], whose
    [xfactor_max] is the initial one, a pending job with a limit of one
    minute that became eligible 2148 seconds ago has the factor [2^31]; the
    sum with [NICE_OFFSET] is [2^32], and the 32-bit sum that [_update]
    writes is 0, below the neutral site factor.  The running job of the list
    keeps its record. *)
Theorem update_site_factor_wraps :
  let w := snd (@init slurm_h_19_05
                  (world_loaded
                     (Some "xfactor_min_time=1,xfactor_max=2147483648,xfactor_weight=1000000")
                     1002148)) in
  let job_ptr := pending_job 1000000 1 in
  let job_list := [job_ptr; running_job 1000000 1] in
  let factor := fst (@_calc_factor slurm_h_19_05 libm_glibc job_ptr w) in
  @reachable slurm_h_19_05 libm_glibc w /\
  @in_range slurm_h_19_05 w /\
  parameters w = (1, 2147483648, 1000000) /\
  @IS_JOB_PENDING slurm_h_19_05 job_ptr = true /\
  @IS_JOB_PENDING slurm_h_19_05 (running_job 1000000 1) = false /\
  factor = 2 ^ 31 /\
  factor + @NICE_OFFSET slurm_h_19_05 = 2 ^ 32 /\
  fst (@site_factor_p_update slurm_h_19_05 libm_glibc job_list w) =
  [set_site_factor job_ptr 0; running_job 1000000 1].
Proof.
  cbv zeta. split; [|split].
  - apply (@reach_call slurm_h_19_05 libm_glibc call_init).
    apply reach_loaded. reflexivity.
  - unfold in_range. vm_compute. intuition discriminate.
  - split; [vm_compute; reflexivity|].
    split; [reflexivity|]. split; [reflexivity|].
    split; [vm_compute; reflexivity|].
    split; vm_compute; reflexivity.
Qed.

(** ** The range of the parameters *)

Section Range.

Context `{slurm_h} `{libm}.

Lemma in_range_parameters w w' :
  parameters w' = parameters w -> in_range w -> in_range w'.
Proof.
  unfold parameters, in_range. intros Hp. injection Hp as -> -> ->. auto.
Qed.

Lemma loaded_in_range w : loaded w -> in_range w.
Proof.
  unfold loaded, parameters, in_range. intros Hl. injection Hl as -> -> ->.
  pose proof NICE_OFFSET_range. lia.
Qed.

Lemma init_in_range w : in_range w -> in_range (snd (init w)).
Proof.
  intros Hr. unfold init, bind, ret.
  destruct (debug "%s: %s loaded" [arg_s "init"; arg_s plugin_name] w)
    as [[] w1] eqn:Hdebug.
  assert (Hr1 : in_range w1).
  { apply (in_range_parameters w); [|exact Hr].
    destruct w. injection Hdebug as <-. reflexivity. }
  apply _parse_parameters_in_range in Hr1.
  destruct (_parse_parameters w1) as [[] w2]. exact Hr1.
Qed.

Lemma run_call_in_range c w : in_range w -> in_range (run_call c w).
Proof.
  intros Hr. destruct c as [| | |job_ptr|job_list]; cbn [run_call].
  - now apply init_in_range.
  - apply (in_range_parameters w); [apply fini_parameters | exact Hr].
  - now apply _parse_parameters_in_range.
  - apply (in_range_parameters w);
      [apply site_factor_p_set_parameters | exact Hr].
  - apply (in_range_parameters w);
      [apply site_factor_p_update_parameters | exact Hr].
Qed.

End Range.

(** C9: in every world that the plugin can reach from its load, whatever the
    calls and whatever the configuration strings, each of the three
    parameters is within its range. *)
Theorem reachable_in_range `{slurm_h} `{libm} (w : world) :
  reachable w -> in_range w.
Proof.
  induction 1 as [w Hl | c w _ IH | w w' _ IH Hp].
  - now apply loaded_in_range.
  - now apply run_call_in_range.
  - now apply (in_range_parameters w).
Qed.

Lemma reachable_in_range_witness :
  @in_range slurm_h_19_05 (world_weight_65536 1065536).
Proof.
  apply (@reachable_in_range slurm_h_19_05 libm_glibc).
  apply (@reach_call slurm_h_19_05 libm_glibc call_init).
  apply reach_loaded. reflexivity.
Defined.

(** ** The scenarios of the specification, run on Slurm's constants *)

(** Parameters 5, 100 and 2; a job eligible for 600 seconds with a limit of
    10 minutes: the divisor is 10, the quotient 60, the product 120, the
    factor 100, and the site factor [100 + NICE_OFFSET]. *)
Example scenario_clamped :
  let w := snd (@init slurm_h_19_05
                  (world_loaded
                     (Some "xfactor_min_time=5,xfactor_max=100,xfactor_weight=2")
                     1000600)) in
  parameters w = (5, 100, 2) /\
  @calc_tmp_time slurm_h_19_05 (pending_job 1000000 10) 5 = 10 /\
  fst (@_calc_factor slurm_h_19_05 libm_glibc (pending_job 1000000 10) w)
  = 100 /\
  site_factor
    (fst (@site_factor_p_set slurm_h_19_05 libm_glibc
            (pending_job 1000000 10) w)) = 100 + 0x80000000.
Proof. cbv zeta. split; [|split; [|split]]; vm_compute; reflexivity. Qed.

(** An unset time limit and an unbounded partition: the divisor is the
    minimum time. *)
Example scenario_unbounded :
  @calc_tmp_time slurm_h_19_05
    (set_part_ptr (pending_job 1000000 0xfffffffe)
       (Some (mk_part_record 0xffffffff))) 5 = 5.
Proof. reflexivity. Qed.

(** Keys are found whatever their case, and a value that is not a number
    reads as 0 and is refused, the parameters before it being kept. *)
Example parse_case_and_garbage :
  parameters
    (snd (@_parse_parameters slurm_h_19_05
            (world_loaded
               (Some "XFactor_Min_Time=30,xfactor_max=abc,xfactor_weight=2")
               0)))
  = (30, 0x80000000, 1).
Proof. vm_compute. reflexivity. Qed.

(** The site factor is a 32-bit sum.  With the initial [xfactor_max], which
    is [NICE_OFFSET], a factor that reaches the maximum gives the site factor
    [2 * NICE_OFFSET], which Slurm's [NICE_OFFSET] of [2^31] wraps to 0. *)
Example site_factor_of_largest_factor :
  let w := snd (@init slurm_h_19_05
                  (world_loaded
                     (Some "xfactor_min_time=1,xfactor_max=2147483648,xfactor_weight=1000000")
                     1002148)) in
  let job_ptr := pending_job 1000000 1 in
  @in_range slurm_h_19_05 w /\
  fst (@_calc_factor slurm_h_19_05 libm_glibc job_ptr w) = 0x80000000 /\
  site_factor (fst (@site_factor_p_set slurm_h_19_05 libm_glibc job_ptr w)) = 0.
Proof.
  cbv zeta. split; [|split; vm_compute; reflexivity].
  unfold in_range. vm_compute. repeat split; discriminate.
Qed.

(** * Further properties *)

(** ** The runs of [_parse_parameters] *)

Section Parse_runs.

Context `{slurm_h}.

Lemma token_value_some params key v :
  token_value params key = Some v ->
  exists tmp_ptr, xstrcasestr params key = Some tmp_ptr /\
                  v = u32 (atoi (ptr_add tmp_ptr (String.length key))).
Proof.
  unfold token_value. destruct (xstrcasestr params key) as [tmp_ptr|];
    [|discriminate].
  intros [= <-]. now exists tmp_ptr.
Qed.

Lemma range_check_refused v hi :
  v < 1 \/ hi < v -> (v <? 1) || (v >? hi) = true.
Proof.
  intros [Hlo | Hhi]; apply orb_true_iff.
  - left. now apply Z.ltb_lt.
  - right. rewrite Z.gtb_ltb. now apply Z.ltb_lt.
Qed.

(** The run that stops at the first key. *)
Lemma _parse_parameters_stop_min_time w params :
  priority_site_factor_params w = Some params ->
  (forall v, token_value params "xfactor_min_time=" = Some v ->
             v < 1 \/ 129600 < v) ->
  exists e,
    _parse_parameters w =
    cleanup (parse_stop w (xfactor_min_time w) (xfactor_max w)
               (xfactor_weight w) [error_call e]).
Proof.
  intros Hconf Hbad. unfold _parse_parameters, token_value, parse_stop in *.
  destruct w as [mn mx wt conf flags clk n lg].
  cbn [priority_site_factor_params] in Hconf. subst conf. run_monad.
  change (String.length "xfactor_min_time=") with 17%nat in *.
  destruct (xstrcasestr params "xfactor_min_time=") as [tmp_ptr|].
  - rewrite (range_check_refused _ _ (Hbad _ eq_refl)).
    eexists. reflexivity.
  - eexists. reflexivity.
Qed.

(** The run that assigns the first parameter and stops at the second key. *)
Lemma _parse_parameters_stop_max w params v1 :
  priority_site_factor_params w = Some params ->
  token_value params "xfactor_min_time=" = Some v1 -> 1 <= v1 <= 129600 ->
  (forall v, token_value params "xfactor_max=" = Some v ->
             v < 1 \/ NICE_OFFSET < v) ->
  exists e,
    _parse_parameters w =
    cleanup (parse_stop w v1 (xfactor_max w) (xfactor_weight w)
               [error_call e]).
Proof.
  intros Hconf Hmin Hmin_ok Hbad.
  apply token_value_some in Hmin as (tmp_min & Hmin & ->).
  unfold _parse_parameters, token_value, parse_stop in *.
  destruct w as [mn mx wt conf flags clk n lg].
  cbn [priority_site_factor_params] in Hconf. subst conf. run_monad.
  rewrite Hmin. change (String.length "xfactor_min_time=") with 17%nat in *.
  rewrite (range_check_true _ _ Hmin_ok). cbv beta iota.
  change (String.length "xfactor_max=") with 12%nat in *.
  destruct (xstrcasestr params "xfactor_max=") as [tmp_ptr|].
  - rewrite (range_check_refused _ _ (Hbad _ eq_refl)).
    eexists. reflexivity.
  - eexists. reflexivity.
Qed.

(** The run that assigns two parameters and stops at the third key. *)
Lemma _parse_parameters_stop_weight w params v1 v2 :
  priority_site_factor_params w = Some params ->
  token_value params "xfactor_min_time=" = Some v1 -> 1 <= v1 <= 129600 ->
  token_value params "xfactor_max=" = Some v2 -> 1 <= v2 <= NICE_OFFSET ->
  (forall v, token_value params "xfactor_weight=" = Some v ->
             v < 1 \/ NICE_OFFSET < v) ->
  exists e,
    _parse_parameters w =
    cleanup (parse_stop w v1 v2 (xfactor_weight w) [error_call e]).
Proof.
  intros Hconf Hmin Hmin_ok Hmax Hmax_ok Hbad.
  apply token_value_some in Hmin as (tmp_min & Hmin & ->).
  apply token_value_some in Hmax as (tmp_max & Hmax & ->).
  unfold _parse_parameters, token_value, parse_stop in *.
  destruct w as [mn mx wt conf flags clk n lg].
  cbn [priority_site_factor_params] in Hconf. subst conf. run_monad.
  rewrite Hmin. change (String.length "xfactor_min_time=") with 17%nat in *.
  rewrite (range_check_true _ _ Hmin_ok). cbv beta iota.
  rewrite Hmax. change (String.length "xfactor_max=") with 12%nat in *.
  rewrite (range_check_true _ _ Hmax_ok). cbv beta iota.
  change (String.length "xfactor_weight=") with 15%nat in *.
  destruct (xstrcasestr params "xfactor_weight=") as [tmp_ptr|].
  - rewrite (range_check_refused _ _ (Hbad _ eq_refl)).
    eexists. reflexivity.
  - eexists. reflexivity.
Qed.

(** The run that assigns the three parameters. *)
Lemma _parse_parameters_all w params v1 v2 v3 :
  priority_site_factor_params w = Some params ->
  token_value params "xfactor_min_time=" = Some v1 -> 1 <= v1 <= 129600 ->
  token_value params "xfactor_max=" = Some v2 -> 1 <= v2 <= NICE_OFFSET ->
  token_value params "xfactor_weight=" = Some v3 -> 1 <= v3 <= NICE_OFFSET ->
  _parse_parameters w = cleanup (parse_stop w v1 v2 v3 []).
Proof.
  intros Hconf Hmin Hmin_ok Hmax Hmax_ok Hwt Hwt_ok.
  apply token_value_some in Hmin as (tmp_min & Hmin & ->).
  apply token_value_some in Hmax as (tmp_max & Hmax & ->).
  apply token_value_some in Hwt as (tmp_wt & Hwt & ->).
  unfold _parse_parameters, parse_stop.
  destruct w as [mn mx wt conf flags clk n lg].
  cbn [priority_site_factor_params] in Hconf. subst conf. run_monad.
  rewrite Hmin. change (String.length "xfactor_min_time=") with 17%nat in *.
  rewrite (range_check_true _ _ Hmin_ok). cbv beta iota.
  rewrite Hmax. change (String.length "xfactor_max=") with 12%nat in *.
  rewrite (range_check_true _ _ Hmax_ok). cbv beta iota.
  rewrite Hwt. change (String.length "xfactor_weight=") with 15%nat in *.
  rewrite (range_check_true _ _ Hwt_ok). cbv beta iota.
  rewrite app_nil_r. reflexivity.
Qed.

(** What a run that stops with one error leaves. *)
Lemma cleanup_after_error w mn mx wt e :
  let w' := snd (cleanup (parse_stop w mn mx wt [error_call e])) in
  parameters w' = (mn, mx, wt) /\
  exists dbg,
    log w' = (log w ++ error_call e :: dbg)%list /\
    forall c, In c dbg -> level c = LOG_DEBUG.
Proof.
  pose proof (cleanup_world (parse_stop w mn mx wt [error_call e]))
    as (Hp & _ & _ & _ & _ & dbg & Hlog & Hdbg).
  cbv zeta in *. split; [exact Hp|].
  exists dbg. split; [|exact Hdbg].
  rewrite Hlog. cbn [log parse_stop]. now rewrite <- app_assoc.
Qed.

End Parse_runs.

(** X1: when the three keys occur and the value behind the first occurrence
    of each is within its range, [_parse_parameters] assigns the three
    values, whatever the order of the tokens, the case of the keys and the
    characters that follow the digits, and it logs no error. *)
Theorem parse_all_valid `{slurm_h} (w : world) (params : string)
    (v1 v2 v3 : Z) :
  priority_site_factor_params w = Some params ->
  token_value params "xfactor_min_time=" = Some v1 -> 1 <= v1 <= 129600 ->
  token_value params "xfactor_max=" = Some v2 -> 1 <= v2 <= NICE_OFFSET ->
  token_value params "xfactor_weight=" = Some v3 -> 1 <= v3 <= NICE_OFFSET ->
  let w' := snd (_parse_parameters w) in
  parameters w' = (v1, v2, v3) /\
  exists dbg,
    log w' = (log w ++ dbg)%list /\
    forall c, In c dbg -> level c = LOG_DEBUG.
Proof.
  intros Hconf Hmin Hmin_ok Hmax Hmax_ok Hwt Hwt_ok.
  rewrite (_parse_parameters_all w params v1 v2 v3) by assumption.
  pose proof (cleanup_world (parse_stop w v1 v2 v3 []))
    as (Hp & _ & _ & _ & _ & dbg & Hlog & Hdbg).
  cbv zeta in *. split; [exact Hp|].
  exists dbg. split; [|exact Hdbg].
  rewrite Hlog. cbn [log parse_stop]. now rewrite app_nil_r.
Qed.

Lemma parse_all_valid_witness :
  let w := world_with 1 0x80000000 1
             (Some "xfactor_weight=2 XFACTOR_MAX=100 xfactor_min_time=5min")
             0 1000600 in
  let w' := snd (@_parse_parameters slurm_h_19_05 w) in
  parameters w' = (5, 100, 2) /\
  exists dbg,
    log w' = (log w ++ dbg)%list /\
    forall c, In c dbg -> level c = LOG_DEBUG.
Proof.
  apply (@parse_all_valid slurm_h_19_05
           (world_with 1 0x80000000 1
              (Some "xfactor_weight=2 XFACTOR_MAX=100 xfactor_min_time=5min")
              0 1000600)
           "xfactor_weight=2 XFACTOR_MAX=100 xfactor_min_time=5min" 5 100 2);
    try reflexivity; vm_compute; split; discriminate.
Defined.

(** X2: when the first key does not occur, or the [uint32_t] that the code
    reads behind its first occurrence is out of [1, 129600],
    [_parse_parameters] assigns none of the three parameters, even where the
    two other tokens are valid, and logs one error. *)
Theorem parse_min_time_refused `{slurm_h} (w : world) (params : string) :
  priority_site_factor_params w = Some params ->
  (forall v, token_value params "xfactor_min_time=" = Some v ->
             v < 1 \/ 129600 < v) ->
  let w' := snd (_parse_parameters w) in
  parameters w' = parameters w /\
  exists e dbg,
    log w' = (log w ++ error_call e :: dbg)%list /\
    forall c, In c dbg -> level c = LOG_DEBUG.
Proof.
  intros Hconf Hbad.
  destruct (_parse_parameters_stop_min_time w params Hconf Hbad) as [e ->].
  destruct (cleanup_after_error w (xfactor_min_time w) (xfactor_max w)
              (xfactor_weight w) e) as [Hp Hlog].
  split; [exact Hp|]. exists e. exact Hlog.
Qed.

Lemma parse_min_time_refused_witness :
  let w := world_with 7 70 3
             (Some "xfactor_min_time=-5,xfactor_max=100,xfactor_weight=2")
             0 1000600 in
  let w' := snd (@_parse_parameters slurm_h_19_05 w) in
  parameters w' = parameters w /\
  exists e dbg,
    log w' = (log w ++ error_call e :: dbg)%list /\
    forall c, In c dbg -> level c = LOG_DEBUG.
Proof.
  apply (@parse_min_time_refused slurm_h_19_05
           (world_with 7 70 3
              (Some "xfactor_min_time=-5,xfactor_max=100,xfactor_weight=2")
              0 1000600)
           "xfactor_min_time=-5,xfactor_max=100,xfactor_weight=2").
  - reflexivity.
  - intros v Hv. vm_compute in Hv. injection Hv as <-. right. reflexivity.
Defined.

(** X3: when the first token is valid and the second key does not occur or
    its value is out of [1, NICE_OFFSET], [_parse_parameters] assigns
    [xfactor_min_time] alone and logs one error. *)
Theorem parse_max_refused `{slurm_h} (w : world) (params : string) (v1 : Z) :
  priority_site_factor_params w = Some params ->
  token_value params "xfactor_min_time=" = Some v1 -> 1 <= v1 <= 129600 ->
  (forall v, token_value params "xfactor_max=" = Some v ->
             v < 1 \/ NICE_OFFSET < v) ->
  let w' := snd (_parse_parameters w) in
  parameters w' = (v1, xfactor_max w, xfactor_weight w) /\
  exists e dbg,
    log w' = (log w ++ error_call e :: dbg)%list /\
    forall c, In c dbg -> level c = LOG_DEBUG.
Proof.
  intros Hconf Hmin Hmin_ok Hbad.
  destruct (_parse_parameters_stop_max w params v1 Hconf Hmin Hmin_ok Hbad)
    as [e ->].
  destruct (cleanup_after_error w v1 (xfactor_max w) (xfactor_weight w) e)
    as [Hp Hlog].
  split; [exact Hp|]. exists e. exact Hlog.
Qed.

Lemma parse_max_refused_witness :
  let w := world_with 7 70 3
             (Some "xfactor_min_time=5,xfactor_max=many,xfactor_weight=2")
             0 1000600 in
  let w' := snd (@_parse_parameters slurm_h_19_05 w) in
  parameters w' = (5, xfactor_max w, xfactor_weight w) /\
  exists e dbg,
    log w' = (log w ++ error_call e :: dbg)%list /\
    forall c, In c dbg -> level c = LOG_DEBUG.
Proof.
  apply (@parse_max_refused slurm_h_19_05
           (world_with 7 70 3
              (Some "xfactor_min_time=5,xfactor_max=many,xfactor_weight=2")
              0 1000600)
           "xfactor_min_time=5,xfactor_max=many,xfactor_weight=2" 5).
  - reflexivity.
  - reflexivity.
  - lia.
  - intros v Hv. vm_compute in Hv. injection Hv as <-. left. reflexivity.
Defined.

(** X4: when the first two tokens are valid and the third key does not occur
    or its value is out of [1, NICE_OFFSET], [_parse_parameters] assigns
    [xfactor_min_time] and [xfactor_max], keeps [xfactor_weight] and logs one
    error. *)
Theorem parse_weight_refused `{slurm_h} (w : world) (params : string)
    (v1 v2 : Z) :
  priority_site_factor_params w = Some params ->
  token_value params "xfactor_min_time=" = Some v1 -> 1 <= v1 <= 129600 ->
  token_value params "xfactor_max=" = Some v2 -> 1 <= v2 <= NICE_OFFSET ->
  (forall v, token_value params "xfactor_weight=" = Some v ->
             v < 1 \/ NICE_OFFSET < v) ->
  let w' := snd (_parse_parameters w) in
  parameters w' = (v1, v2, xfactor_weight w) /\
  exists e dbg,
    log w' = (log w ++ error_call e :: dbg)%list /\
    forall c, In c dbg -> level c = LOG_DEBUG.
Proof.
  intros Hconf Hmin Hmin_ok Hmax Hmax_ok Hbad.
  destruct (_parse_parameters_stop_weight w params v1 v2
              Hconf Hmin Hmin_ok Hmax Hmax_ok Hbad) as [e ->].
  destruct (cleanup_after_error w v1 v2 (xfactor_weight w) e) as [Hp Hlog].
  split; [exact Hp|]. exists e. exact Hlog.
Qed.

Lemma parse_weight_refused_witness :
  let w := world_with 7 70 3
             (Some "xfactor_min_time=5,xfactor_max=100,xfactor_weight=0")
             0 1000600 in
  let w' := snd (@_parse_parameters slurm_h_19_05 w) in
  parameters w' = (5, 100, xfactor_weight w) /\
  exists e dbg,
    log w' = (log w ++ error_call e :: dbg)%list /\
    forall c, In c dbg -> level c = LOG_DEBUG.
Proof.
  apply (@parse_weight_refused slurm_h_19_05
           (world_with 7 70 3
              (Some "xfactor_min_time=5,xfactor_max=100,xfactor_weight=0")
              0 1000600)
           "xfactor_min_time=5,xfactor_max=100,xfactor_weight=0" 5 100).
  - reflexivity.
  - reflexivity.
  - lia.
  - reflexivity.
  - vm_compute. split; discriminate.
  - intros v Hv. vm_compute in Hv. injection Hv as <-. left. reflexivity.
Defined.

(** ** What [_parse_parameters] leaves alone *)

Ltac log_members :=
  let c := fresh "c" in
  intros c; cbn [In]; intuition (subst; reflexivity).

(** X5: [_parse_parameters] changes nothing of the world but the three
    parameters and the log; it does not read the clock; to the log it adds
    at most one error, followed by at most one debug line. *)
Theorem parse_frame `{slurm_h} (w : world) :
  let w' := snd (_parse_parameters w) in
  priority_site_factor_params w' = priority_site_factor_params w /\
  debug_flags w' = debug_flags w /\
  wall_clock w' = wall_clock w /\
  time_calls w' = time_calls w /\
  exists errs dbg,
    log w' = (log w ++ errs ++ dbg)%list /\
    (List.length errs <= 1)%nat /\
    (forall c, In c errs -> level c = LOG_ERROR) /\
    (List.length dbg <= 1)%nat /\
    (forall c, In c dbg -> level c = LOG_DEBUG).
Proof.
  unfold _parse_parameters, cleanup.
  destruct w as [mn mx wt conf flags clk n lg]. run_monad.
  repeat run_branch; cbn [fst snd];
    repeat (split; [reflexivity|]);
    lazymatch goal with
    | |- exists errs dbg,
          ((?l ++ [?e]) ++ [?d])%list = _ /\ _ => exists [e], [d]
    | |- exists errs dbg,
          (?l ++ [mk_log_call LOG_ERROR ?f ?a])%list = _ /\ _ =>
        exists [mk_log_call LOG_ERROR f a], []
    | |- exists errs dbg,
          (?l ++ [mk_log_call LOG_DEBUG ?f ?a])%list = _ /\ _ =>
        exists [], [mk_log_call LOG_DEBUG f a]
    | |- exists errs dbg, ?l = _ /\ _ => exists [], []
    end;
    (split; [cbn [app]; rewrite <- ?app_assoc, ?app_nil_r; reflexivity|]);
    cbn [List.length]; repeat split; try lia; log_members.
Qed.

(** X6: a run of [_parse_parameters] that adds no error to the log has found
    the three tokens valid and has assigned the three values: a log without
    a new error tells that the configuration is in force. *)
Theorem parse_silent_applied `{slurm_h} (w : world) (added : list log_call) :
  log (snd (_parse_parameters w)) = (log w ++ added)%list ->
  (forall c, In c added -> level c = LOG_DEBUG) ->
  exists params v1 v2 v3,
    priority_site_factor_params w = Some params /\
    token_value params "xfactor_min_time=" = Some v1 /\ 1 <= v1 <= 129600 /\
    token_value params "xfactor_max=" = Some v2 /\ 1 <= v2 <= NICE_OFFSET /\
    token_value params "xfactor_weight=" = Some v3 /\ 1 <= v3 <= NICE_OFFSET /\
    parameters (snd (_parse_parameters w)) = (v1, v2, v3).
Proof.
  unfold _parse_parameters, cleanup, token_value.
  destruct w as [mn mx wt conf flags clk n lg]. run_monad.
  repeat run_branch; cbn [fst snd]; intros Hlog Hdbg;
    rewrite <- ?app_assoc in Hlog;
    try match type of Hlog with
        | ?l = (?l ++ _)%list => rewrite <- (app_nil_r l) in Hlog at 1
        end;
    apply app_inv_head in Hlog; subst added; cbn [app] in Hdbg;
    try (exfalso;
         match goal with
         | Hd : forall c, In c (mk_log_call LOG_ERROR ?f ?a :: ?r) -> _ |- _ =>
             specialize (Hd (mk_log_call LOG_ERROR f a) (or_introl eq_refl));
             discriminate Hd
         end).
  all: repeat match goal with
              | Hc : (_ <? 1) || (_ >? _) = false |- _ =>
                  apply range_check_false in Hc
              end.
  all: do 4 eexists; split; [reflexivity|].
  all: repeat match goal with
              | Hx : xstrcasestr _ _ = Some _ |- _ => rewrite Hx; clear Hx
              end.
  all: repeat (split; [reflexivity || eassumption|]); reflexivity.
Qed.

Lemma parse_silent_applied_witness :
  let w := world_with 1 0x80000000 1
             (Some "xfactor_min_time=5,xfactor_max=100,xfactor_weight=2")
             0 1000600 in
  exists params v1 v2 v3,
    priority_site_factor_params w = Some params /\
    token_value params "xfactor_min_time=" = Some v1 /\ 1 <= v1 <= 129600 /\
    token_value params "xfactor_max=" = Some v2 /\
    1 <= v2 <= @NICE_OFFSET slurm_h_19_05 /\
    token_value params "xfactor_weight=" = Some v3 /\
    1 <= v3 <= @NICE_OFFSET slurm_h_19_05 /\
    parameters (snd (@_parse_parameters slurm_h_19_05 w)) = (v1, v2, v3).
Proof.
  apply (@parse_silent_applied slurm_h_19_05
           (world_with 1 0x80000000 1
              (Some "xfactor_min_time=5,xfactor_max=100,xfactor_weight=2")
              0 1000600) []).
  - reflexivity.
  - intros c [].
Defined.


(** X7: under an unchanged configuration string, a second run of
    [_parse_parameters] assigns nothing new: the parameters after two runs
    are those after one. *)
Theorem parse_twice `{slurm_h} (w : world) :
  parameters (snd (_parse_parameters (snd (_parse_parameters w)))) =
  parameters (snd (_parse_parameters w)).
Proof.
  unfold _parse_parameters, cleanup.
  destruct w as [mn mx wt conf flags clk n lg]. run_monad.
  repeat (run_branch; run_monad); try reflexivity; congruence.
Qed.

(** X8: [init] and [site_factor_p_reconfig] assign the same parameters; they
    differ by the line that [init] logs first. *)
Theorem init_as_reconfig `{slurm_h} (w : world) :
  parameters (snd (init w)) = parameters (snd (site_factor_p_reconfig w)) /\
  exists added,
    log (snd (site_factor_p_reconfig w)) = (log w ++ added)%list /\
    log (snd (init w)) =
    (log w ++
     mk_log_call LOG_DEBUG "%s: %s loaded" [arg_s "init"; arg_s plugin_name]
     :: added)%list.
Proof.
  unfold init, site_factor_p_reconfig, _parse_parameters, cleanup.
  destruct w as [mn mx wt conf flags clk n lg]. run_monad.
  repeat (run_branch; run_monad); (split; [reflexivity|]);
    first [ exists []; rewrite ?app_nil_r; split; reflexivity
          | eexists; rewrite <- ?app_assoc; split; reflexivity ].
Qed.

(** X9: with a configuration string and the Priority debug flag set, the
    last line that [_parse_parameters] logs reports the three parameters as
    the run leaves them, whether the run assigned them or stopped on an
    error. *)
Theorem parse_reports_parameters `{slurm_h} (w : world) (params : string) :
  priority_site_factor_params w = Some params ->
  Z.land (debug_flags w) DEBUG_FLAG_PRIO <> 0 ->
  let w' := snd (_parse_parameters w) in
  exists before, log w' = (before ++ [parameters_debug_call w'])%list.
Proof.
  unfold _parse_parameters, cleanup, parameters_debug_call.
  destruct w as [mn mx wt conf flags clk n lg].
  cbn [priority_site_factor_params debug_flags]. intros -> Hflag.
  apply Z.eqb_neq in Hflag. run_monad.
  repeat (run_branch; run_monad); try congruence; eexists; reflexivity.
Qed.

Lemma parse_reports_parameters_witness :
  let w := world_with 7 70 3
             (Some "xfactor_min_time=5,xfactor_max=0") 0x800 1000600 in
  let w' := snd (@_parse_parameters slurm_h_19_05 w) in
  exists before, log w' = (before ++ [parameters_debug_call w'])%list.
Proof.
  apply (@parse_reports_parameters slurm_h_19_05
           (world_with 7 70 3
              (Some "xfactor_min_time=5,xfactor_max=0") 0x800 1000600)
           "xfactor_min_time=5,xfactor_max=0").
  - reflexivity.
  - vm_compute. discriminate.
Defined.

(** ** What the factor depends on *)

Section Calc_depends.

Context `{slurm_h}.

Lemma lround_quotient_libm (L1 L2 : libm) delta tmp_time :
  tmp_time <> 0 ->
  @lround_quotient L1 delta tmp_time = @lround_quotient L2 delta tmp_time.
Proof.
  intros Ht. unfold lround_quotient.
  destruct (Z.eqb_spec tmp_time 0); [contradiction | reflexivity].
Qed.

Lemma calc_time_limit_fields job1 job2 :
  time_limit job1 = time_limit job2 -> part_ptr job1 = part_ptr job2 ->
  calc_time_limit job1 = calc_time_limit job2.
Proof. unfold calc_time_limit. now intros -> ->. Qed.

End Calc_depends.

(** X10: the factor is a function of the three parameters, of the reading of
    the clock and of the job's details, time limit and partition: neither
    the state of the job, nor its present site factor, nor the debug flags,
    the log or the configuration string change it. *)
Theorem calc_factor_depends `{slurm_h} `{libm}
    (job1 job2 : job_record) (w1 w2 : world) :
  parameters w1 = parameters w2 ->
  next_time w1 = next_time w2 ->
  details job1 = details job2 ->
  time_limit job1 = time_limit job2 ->
  part_ptr job1 = part_ptr job2 ->
  fst (_calc_factor job1 w1) = fst (_calc_factor job2 w2).
Proof.
  intros Hp Hnow Hdet Hlimit Hpart.
  pose proof (calc_time_limit_fields job1 job2 Hlimit Hpart) as Hbase.
  unfold _calc_factor, calc_tmp_time. rewrite Hdet, Hbase.
  destruct w1 as [mn1 mx1 wt1 conf1 flags1 clk1 n1 lg1].
  destruct w2 as [mn2 mx2 wt2 conf2 flags2 clk2 n2 lg2].
  unfold parameters, next_time in *.
  cbn [xfactor_min_time xfactor_max xfactor_weight wall_clock time_calls]
    in *.
  injection Hp as -> -> ->. run_monad. rewrite Hnow.
  repeat run_branch; reflexivity.
Qed.

Lemma calc_factor_depends_witness :
  fst (@_calc_factor slurm_h_19_05 libm_glibc
         (pending_job 1000000 10) (world_at 5 100 2 1000600)) =
  fst (@_calc_factor slurm_h_19_05 libm_glibc
         (mk_job_record (Some (mk_job_details 1000000)) 1 None 7 10)
         (world_with 5 100 2 (Some "xfactor_weight=9") 0x800 1000600)).
Proof.
  apply (@calc_factor_depends slurm_h_19_05 libm_glibc); reflexivity.
Defined.

(** X11: with [xfactor_min_time] at least 1, as the range check of the
    parser leaves it, the divisor of [_calc_factor] is never zero: the
    factor does not depend on what [lround] returns for an infinite
    quotient. *)
Theorem calc_factor_never_divides_by_zero `{slurm_h} (L1 L2 : libm)
    (job_ptr : job_record) (w : world) :
  1 <= xfactor_min_time w ->
  @_calc_factor _ L1 job_ptr w = @_calc_factor _ L2 job_ptr w.
Proof.
  intros Hmin. unfold _calc_factor.
  destruct w as [mn mx wt conf flags clk n lg].
  cbn [xfactor_min_time] in Hmin. run_monad.
  pose proof (calc_tmp_time_ge job_ptr mn) as Hge.
  repeat (run_branch; run_monad); try reflexivity.
  all: rewrite (lround_quotient_libm L1 L2) by lia; reflexivity.
Qed.

Lemma calc_factor_never_divides_by_zero_witness :
  @_calc_factor slurm_h_19_05 libm_glibc
    (pending_job 1000000 0) (world_at 1 100 2 1000600) =
  @_calc_factor slurm_h_19_05
    {| lround_inf := 7;
       lround_inf_u32 := ltac:(unfold is_u32, U32_MOD; lia) |}
    (pending_job 1000000 0) (world_at 1 100 2 1000600).
Proof.
  apply (@calc_factor_never_divides_by_zero slurm_h_19_05).
  simpl. lia.
Defined.

(** ** The factor in integers *)

Section Calc_exact.

Context `{slurm_h} `{libm}.

Lemma lround_quotient_exact delta tmp_time :
  is_u32 delta -> 0 < tmp_time ->
  lround_quotient delta tmp_time = (2 * delta + tmp_time) / (2 * tmp_time).
Proof.
  intros Hd Ht. unfold lround_quotient.
  destruct (Z.eqb_spec tmp_time 0) as [->|_]; [lia|].
  apply u32_id. unfold is_u32 in *. split.
  - apply Z.div_pos; lia.
  - apply Z.lt_le_trans with (delta + 1); [|lia].
    apply Z.div_lt_upper_bound; nia.
Qed.

Lemma lround_quotient_le_delta delta tmp_time :
  is_u32 delta -> 0 < tmp_time -> 0 <= lround_quotient delta tmp_time <= delta.
Proof.
  intros Hd Ht. rewrite lround_quotient_exact by assumption.
  unfold is_u32 in Hd. split.
  - apply Z.div_pos; lia.
  - apply Z.lt_succ_r. apply Z.div_lt_upper_bound; nia.
Qed.

(** The factor where the product fits 32 bits. *)
Lemma _calc_factor_exact job_ptr det w :
  is_u32 (xfactor_max w) -> 1 <= xfactor_min_time w ->
  details job_ptr = Some det ->
  0 < xfactor_weight w -> accrue_time det <> 0 ->
  0 < next_time w - accrue_time det < U32_MOD ->
  let delta := next_time w - accrue_time det in
  let tmp_time := Z.max (calc_time_limit job_ptr) (xfactor_min_time w) in
  let raw := (2 * delta + tmp_time) / (2 * tmp_time) in
  raw * xfactor_weight w < U32_MOD ->
  fst (_calc_factor job_ptr w) = Z.min (raw * xfactor_weight w) (xfactor_max w).
Proof.
  intros Hmax Hmin Hdet Hwt Hacc Hspan delta tmp_time raw Hfit.
  assert (Hdelta : calc_delta (next_time w) (accrue_time det) = delta)
    by (apply calc_delta_exact; lia).
  rewrite (_calc_factor_value job_ptr det w)
    by (try assumption; rewrite ?Hdelta; unfold delta; lia).
  rewrite Hdelta. unfold calc_tmp_time. rewrite MAX_max. fold tmp_time.
  assert (Ht : 0 < tmp_time) by (unfold tmp_time; lia).
  assert (Hd : is_u32 delta) by (unfold is_u32; lia).
  pose proof (lround_quotient_le_delta delta tmp_time Hd Ht) as Hraw.
  rewrite lround_quotient_exact in * by assumption. fold raw in Hraw |- *.
  rewrite calc_weightened_factor_exact by lia.
  rewrite MIN_min. apply u32_id. unfold is_u32 in *.
  assert (0 <= raw * xfactor_weight w) by (apply Z.mul_nonneg_nonneg; lia).
  lia.
Qed.

End Calc_exact.

(** X12: for a job that accrues, with a span [now - accrue_time] that fits
    32 bits, the factor is the smaller of [xfactor_max] and
    [raw * xfactor_weight], where [raw] is the span divided by the larger of
    the time limit and [xfactor_min_time], rounded to the nearest integer,
    halves upwards, as long as that product is below [2^32]. *)
Theorem calc_factor_exact `{slurm_h} `{libm}
    (job_ptr : job_record) (det : job_details) (w : world) :
  is_u32 (xfactor_max w) -> 1 <= xfactor_min_time w ->
  details job_ptr = Some det ->
  0 < xfactor_weight w -> accrue_time det <> 0 ->
  0 < next_time w - accrue_time det < U32_MOD ->
  let delta := next_time w - accrue_time det in
  let tmp_time := Z.max (calc_time_limit job_ptr) (xfactor_min_time w) in
  let raw := (2 * delta + tmp_time) / (2 * tmp_time) in
  raw * xfactor_weight w < U32_MOD ->
  fst (_calc_factor job_ptr w) = Z.min (raw * xfactor_weight w) (xfactor_max w) /\
  2 * tmp_time * raw - tmp_time <= 2 * delta < 2 * tmp_time * raw + tmp_time.
Proof.
  intros Hmax Hmin Hdet Hwt Hacc Hspan delta tmp_time raw Hfit.
  split; [now apply (_calc_factor_exact job_ptr det w)|].
  assert (Ht : 0 < 2 * tmp_time) by (unfold tmp_time; lia).
  pose proof (Z.div_mod (2 * delta + tmp_time) (2 * tmp_time)) as Hdm.
  pose proof (Z.mod_pos_bound (2 * delta + tmp_time) (2 * tmp_time) Ht) as Hm.
  fold raw in Hdm. lia.
Qed.

Lemma calc_factor_exact_witness :
  let job_ptr := pending_job 1000000 10 in
  let w := world_at 5 100 2 1000055 in
  let delta := next_time w - 1000000 in
  let tmp_time := Z.max (@calc_time_limit slurm_h_19_05 job_ptr)
                    (xfactor_min_time w) in
  let raw := (2 * delta + tmp_time) / (2 * tmp_time) in
  fst (@_calc_factor slurm_h_19_05 libm_glibc job_ptr w) =
  Z.min (raw * xfactor_weight w) (xfactor_max w) /\
  2 * tmp_time * raw - tmp_time <= 2 * delta < 2 * tmp_time * raw + tmp_time.
Proof.
  apply (@calc_factor_exact slurm_h_19_05 libm_glibc
           (pending_job 1000000 10) (mk_job_details 1000000)
           (world_at 5 100 2 1000055)).
  - unfold is_u32, U32_MOD. simpl. lia.
  - simpl. lia.
  - reflexivity.
  - simpl. lia.
  - simpl. lia.
  - unfold next_time, U32_MOD. simpl. lia.
  - vm_compute. reflexivity.
Defined.

(** X13: the 32-bit product of [_calc_factor] cannot wrap while the span
    times the weight is below [2^32]; so with the initial weight 1 the
    factor is the rounded quotient, clamped, for every span that fits 32
    bits. *)
Theorem calc_factor_safe_weight `{slurm_h} `{libm}
    (job_ptr : job_record) (det : job_details) (w : world) :
  is_u32 (xfactor_max w) -> 1 <= xfactor_min_time w ->
  details job_ptr = Some det ->
  0 < xfactor_weight w -> accrue_time det <> 0 ->
  0 < next_time w - accrue_time det ->
  (next_time w - accrue_time det) * xfactor_weight w < U32_MOD ->
  let delta := next_time w - accrue_time det in
  let tmp_time := Z.max (calc_time_limit job_ptr) (xfactor_min_time w) in
  fst (_calc_factor job_ptr w) =
  Z.min ((2 * delta + tmp_time) / (2 * tmp_time) * xfactor_weight w)
    (xfactor_max w).
Proof.
  intros Hmax Hmin Hdet Hwt Hacc Hpos Hfit delta tmp_time.
  assert (Hspan : delta < U32_MOD) by (unfold delta; nia).
  assert (Ht : 0 < tmp_time) by (unfold tmp_time; lia).
  assert (Hd : is_u32 delta) by (unfold is_u32, delta; lia).
  pose proof (lround_quotient_le_delta delta tmp_time Hd Ht) as Hraw.
  rewrite lround_quotient_exact in Hraw by assumption.
  apply (_calc_factor_exact job_ptr det w); try assumption; [lia|].
  fold delta tmp_time. unfold delta in *. nia.
Qed.

Lemma calc_factor_safe_weight_witness :
  let job_ptr := pending_job 1000000 10 in
  let w := world_loaded None 1000600 in
  let delta := next_time w - 1000000 in
  let tmp_time := Z.max (@calc_time_limit slurm_h_19_05 job_ptr)
                    (xfactor_min_time w) in
  fst (@_calc_factor slurm_h_19_05 libm_glibc job_ptr w) =
  Z.min ((2 * delta + tmp_time) / (2 * tmp_time) * xfactor_weight w)
    (xfactor_max w).
Proof.
  apply (@calc_factor_safe_weight slurm_h_19_05 libm_glibc
           (pending_job 1000000 10) (mk_job_details 1000000)
           (world_loaded None 1000600)).
  - unfold is_u32, U32_MOD. simpl. lia.
  - simpl. lia.
  - reflexivity.
  - simpl. lia.
  - simpl. lia.
  - unfold next_time. simpl. lia.
  - unfold next_time, U32_MOD. simpl. lia.
Defined.

(** X14: in a world whose parameters are within their ranges, a later
    reading of the clock does not lower the factor of a job, as long as the
    later span fits 32 bits and the later product is below [2^32]. *)
Theorem calc_factor_monotone_in_range `{slurm_h} `{libm}
    (job_ptr : job_record) (w1 w2 : world) :
  in_range w2 -> parameters w1 = parameters w2 ->
  next_time w1 <= next_time w2 ->
  (forall det, details job_ptr = Some det ->
     next_time w2 - accrue_time det < U32_MOD /\
     lround_quotient (calc_delta (next_time w2) (accrue_time det))
       (calc_tmp_time job_ptr (xfactor_min_time w2)) * xfactor_weight w2
     < U32_MOD) ->
  fst (_calc_factor job_ptr w1) <= fst (_calc_factor job_ptr w2).
Proof.
  intros (Hmn & Hmx & Hwt) Hp Hnow Hfit.
  pose proof NICE_OFFSET_range as Hn.
  apply _calc_factor_monotone; try assumption; [|lia].
  unfold world_is_u32, is_u32, U32_MOD in *. lia.
Qed.

Lemma calc_factor_monotone_in_range_witness :
  fst (@_calc_factor slurm_h_19_05 libm_glibc
         (pending_job 1000000 10) (world_at 5 100 2 1000100)) <=
  fst (@_calc_factor slurm_h_19_05 libm_glibc
         (pending_job 1000000 10) (world_at 5 100 2 1000600)).
Proof.
  apply (@calc_factor_monotone_in_range slurm_h_19_05 libm_glibc).
  - unfold in_range. simpl. lia.
  - reflexivity.
  - unfold next_time. simpl. lia.
  - intros det Hdet. injection Hdet as <-. split.
    + unfold next_time, U32_MOD. simpl. lia.
    + vm_compute. reflexivity.
Defined.

(** ** What [_calc_factor] logs *)

(** X15: [_calc_factor] logs nothing when the Priority debug flag is clear,
    and nothing when it returns early, whatever the flag. *)
Theorem calc_factor_quiet `{slurm_h} `{libm}
    (job_ptr : job_record) (w : world) :
  Z.land (debug_flags w) DEBUG_FLAG_PRIO = 0 \/
  xfactor_weight w = 0 \/
  details job_ptr = None \/
  (exists det, details job_ptr = Some det /\
     (accrue_time det = 0 \/ next_time w <= accrue_time det)) ->
  log (snd (_calc_factor job_ptr w)) = log w.
Proof.
  unfold _calc_factor, next_time.
  destruct w as [mn mx wt conf flags clk n lg].
  cbn [debug_flags xfactor_weight wall_clock time_calls log].
  intros Hq. run_monad.
  repeat (run_branch; run_monad); try reflexivity; exfalso.
  all: match goal with
       | Hc : (_ =? 0) || (_ =? 0) = false |- _ =>
           apply orb_false_elim in Hc as [Hw Ha];
           apply Z.eqb_neq in Hw; apply Z.eqb_neq in Ha
       end.
  all: match goal with
       | Hd : (calc_delta _ _ =? 0) = false |- _ => apply Z.eqb_neq in Hd
       end.
  all: match goal with
       | Hf : (Z.land _ _ =? 0) = false |- _ => apply Z.eqb_neq in Hf
       end.
  all: destruct Hq as [Hq | [Hq | [Hq | (det & Hdet & [Hq | Hq])]]];
    try congruence.
  all: injection Hdet as <-; try congruence.
  all: apply calc_delta_not_after in Hq; congruence.
Qed.

Lemma calc_factor_quiet_witness :
  log (snd (@_calc_factor slurm_h_19_05 libm_glibc
              (pending_job 1000600 10)
              (world_with 5 100 2 None 0x800 1000600))) =
  log (world_with 5 100 2 None 0x800 1000600).
Proof.
  apply (@calc_factor_quiet slurm_h_19_05 libm_glibc).
  right. right. right. exists (mk_job_details 1000600).
  split; [reflexivity | right; unfold next_time; simpl; lia].
Defined.

(** X16: with the Priority debug flag set, a call of [_calc_factor] that
    reaches the division logs one debug line, which carries the factor that
    the call returns. *)
Theorem calc_factor_logs_factor `{slurm_h} `{libm}
    (job_ptr : job_record) (det : job_details) (w : world) :
  Z.land (debug_flags w) DEBUG_FLAG_PRIO <> 0 ->
  details job_ptr = Some det ->
  xfactor_weight w <> 0 -> accrue_time det <> 0 ->
  calc_delta (next_time w) (accrue_time det) <> 0 ->
  log (snd (_calc_factor job_ptr w)) =
  (log w ++ [factor_debug_call (fst (_calc_factor job_ptr w))])%list.
Proof.
  unfold _calc_factor, next_time, factor_debug_call.
  destruct w as [mn mx wt conf flags clk n lg].
  cbn [debug_flags xfactor_weight wall_clock time_calls log].
  intros Hflag Hdet Hwt Hacc Hdelta. rewrite Hdet. run_monad.
  apply Z.eqb_neq in Hflag, Hwt, Hacc, Hdelta.
  rewrite Hwt, Hacc. cbn [orb]. run_monad.
  rewrite Hdelta. run_monad. rewrite Hflag. reflexivity.
Qed.

Lemma calc_factor_logs_factor_witness :
  log (snd (@_calc_factor slurm_h_19_05 libm_glibc
              (pending_job 1000000 10)
              (world_with 5 100 2 None 0x800 1000600))) =
  (log (world_with 5 100 2 None 0x800 1000600) ++
   [factor_debug_call
      (fst (@_calc_factor slurm_h_19_05 libm_glibc
              (pending_job 1000000 10)
              (world_with 5 100 2 None 0x800 1000600)))])%list.
Proof.
  apply (@calc_factor_logs_factor slurm_h_19_05 libm_glibc
           (pending_job 1000000 10) (mk_job_details 1000000)
           (world_with 5 100 2 None 0x800 1000600)).
  - vm_compute. discriminate.
  - reflexivity.
  - simpl. lia.
  - simpl. lia.
  - vm_compute. discriminate.
Defined.

(** ** The site factor *)

(** X17: a job that does not accrue (no details, a zero accrue time, an
    accrue time not before the clock) or any job under a zero weight gets
    from [site_factor_p_set] the neutral site factor [NICE_OFFSET], and
    keeps its other fields. *)
Theorem set_neutral `{slurm_h} `{libm} (job_ptr : job_record) (w : world) :
  xfactor_weight w = 0 \/
  details job_ptr = None \/
  (exists det, details job_ptr = Some det /\
     (accrue_time det = 0 \/ next_time w <= accrue_time det)) ->
  fst (site_factor_p_set job_ptr w) = set_site_factor job_ptr NICE_OFFSET.
Proof.
  intros Hz.
  assert (Hf : fst (_calc_factor job_ptr w) = 0).
  { destruct Hz as [Hw | [Hd | (det & Hd & [Ha | Hn])]].
    - now apply _calc_factor_no_weight.
    - now apply _calc_factor_no_details.
    - now apply _calc_factor_no_accrue with det.
    - apply _calc_factor_no_delta with det; [assumption|].
      now apply calc_delta_not_after. }
  unfold site_factor_p_set, bind, ret.
  destruct (_calc_factor job_ptr w) as [factor w']. cbn [fst] in *.
  subst factor. f_equal. apply add_u32_exact; pose proof NICE_OFFSET_range; lia.
Qed.

Lemma set_neutral_witness :
  fst (@site_factor_p_set slurm_h_19_05 libm_glibc
         (mk_job_record None 1 None 5 10) (world_at 5 100 2 1000600)) =
  set_site_factor (mk_job_record None 1 None 5 10) 0x80000000.
Proof.
  apply (@set_neutral slurm_h_19_05 libm_glibc
           (mk_job_record None 1 None 5 10) (world_at 5 100 2 1000600)).
  right. left. reflexivity.
Defined.

(** X18: with the parameters within their ranges and [NICE_OFFSET] at most
    [2^31], the site factor that [site_factor_p_set] writes is
    [NICE_OFFSET] plus the factor, hence at least the neutral value, in all
    cases but one: a factor of [2^31], which needs [xfactor_max] and
    [NICE_OFFSET] to be [2^31], wraps the site factor to 0. *)
Theorem set_site_factor_range `{slurm_h} `{libm}
    (job_ptr : job_record) (w : world) :
  in_range w -> NICE_OFFSET <= 2 ^ 31 ->
  let factor := fst (_calc_factor job_ptr w) in
  let written := site_factor (fst (site_factor_p_set job_ptr w)) in
  (written = factor + NICE_OFFSET /\ NICE_OFFSET <= written < U32_MOD) \/
  (factor = 2 ^ 31 /\ xfactor_max w = 2 ^ 31 /\ NICE_OFFSET = 2 ^ 31 /\
   written = 0).
Proof.
  intros (Hmn & Hmx & Hwt) Hn. cbv zeta.
  pose proof NICE_OFFSET_range as Hr.
  pose proof (_calc_factor_u32 job_ptr w) as Hu.
  assert (Hle : fst (_calc_factor job_ptr w) <= xfactor_max w).
  { unfold _calc_factor. destruct w as [mn mx wt conf flags clk n lg].
    cbn [xfactor_max] in *. run_monad.
    repeat run_branch; cbn [fst]; try lia.
    all: etransitivity; [apply u32_le | apply MIN_le_r].
    all: apply MIN_nonneg; [apply u32_range | lia]. }
  unfold site_factor_p_set, bind, ret.
  destruct (_calc_factor job_ptr w) as [factor w'].
  cbn [fst snd site_factor set_site_factor] in *.
  unfold is_u32, U32_MOD in *.
  destruct (Z.eq_dec factor (2 ^ 31)) as [-> | Hne].
  - right. assert (NICE_OFFSET = 2 ^ 31) by lia.
    assert (xfactor_max w = 2 ^ 31) by lia.
    repeat (split; [assumption || reflexivity|]).
    unfold add_u32, u32, U32_MOD. replace NICE_OFFSET with (2 ^ 31).
    reflexivity.
  - left. rewrite add_u32_exact by (unfold U32_MOD; lia). lia.
Qed.

Lemma set_site_factor_range_witness :
  let job_ptr := pending_job 1000000 10 in
  let w := world_at 5 100 2 1000600 in
  let factor := fst (@_calc_factor slurm_h_19_05 libm_glibc job_ptr w) in
  let written :=
    site_factor (fst (@site_factor_p_set slurm_h_19_05 libm_glibc job_ptr w)) in
  (written = factor + @NICE_OFFSET slurm_h_19_05 /\
   @NICE_OFFSET slurm_h_19_05 <= written < U32_MOD) \/
  (factor = 2 ^ 31 /\ xfactor_max w = 2 ^ 31 /\
   @NICE_OFFSET slurm_h_19_05 = 2 ^ 31 /\ written = 0).
Proof.
  apply (@set_site_factor_range slurm_h_19_05 libm_glibc
           (pending_job 1000000 10) (world_at 5 100 2 1000600)).
  - unfold in_range. simpl. lia.
  - simpl. lia.
Defined.

(** ** The bulk update as an iteration of [site_factor_p_set] *)

Section Update_runs.

Context `{slurm_h} `{libm}.

Lemma _update_pending x w :
  IS_JOB_PENDING x = true ->
  fst (fst (_update x w)) = fst (site_factor_p_set x w) /\
  snd (_update x w) = snd (site_factor_p_set x w).
Proof.
  intros Hp. unfold _update, site_factor_p_set, bind, ret. rewrite Hp.
  destruct (_calc_factor x w). split; reflexivity.
Qed.

Lemma _update_not_pending x w :
  IS_JOB_PENDING x = false -> _update x w = ((x, SLURM_SUCCESS), w).
Proof. intros Hp. unfold _update. rewrite Hp. reflexivity. Qed.

Lemma site_factor_p_set_world job_ptr w :
  let w' := snd (site_factor_p_set job_ptr w) in
  parameters w' = parameters w /\
  priority_site_factor_params w' = priority_site_factor_params w /\
  debug_flags w' = debug_flags w /\
  wall_clock w' = wall_clock w /\
  time_calls w' = S (time_calls w).
Proof.
  unfold site_factor_p_set, bind, ret.
  pose proof (_calc_factor_world job_ptr w) as Hw.
  destruct (_calc_factor job_ptr w) as [factor w']. exact Hw.
Qed.

Lemma site_factor_p_update_step job_ptr rest w :
  site_factor_p_update (job_ptr :: rest) w =
  if IS_JOB_PENDING job_ptr then
    (fst (site_factor_p_set job_ptr w)
       :: fst (site_factor_p_update rest (snd (site_factor_p_set job_ptr w))),
     snd (site_factor_p_update rest (snd (site_factor_p_set job_ptr w))))
  else
    (job_ptr :: fst (site_factor_p_update rest w),
     snd (site_factor_p_update rest w)).
Proof.
  rewrite site_factor_p_update_cons.
  destruct (IS_JOB_PENDING job_ptr) eqn:Hp.
  - destruct (_update_pending job_ptr w Hp) as [-> ->]. reflexivity.
  - rewrite (_update_not_pending job_ptr w Hp). reflexivity.
Qed.

End Update_runs.

(** X19: the bulk update does to each pending job, in the order of the list,
    what [site_factor_p_set] does to it, each call starting in the world
    that the one before has left; it skips the other jobs and never stops
    before the end of the list. *)
Theorem update_as_set `{slurm_h} `{libm}
    (job_ptr : job_record) (rest : list job_record) (w : world) :
  site_factor_p_update [] w = ([], w) /\
  site_factor_p_update (job_ptr :: rest) w =
  if IS_JOB_PENDING job_ptr then
    (fst (site_factor_p_set job_ptr w)
       :: fst (site_factor_p_update rest (snd (site_factor_p_set job_ptr w))),
     snd (site_factor_p_update rest (snd (site_factor_p_set job_ptr w))))
  else
    (job_ptr :: fst (site_factor_p_update rest w),
     snd (site_factor_p_update rest w)).
Proof. split; [reflexivity | apply site_factor_p_update_step]. Qed.

(** X20: over a list without a pending job the bulk update changes nothing:
    it returns the list as it is, does not read the clock and logs
    nothing. *)
Theorem update_without_pending `{slurm_h} `{libm}
    (job_list : list job_record) (w : world) :
  (forall job_ptr, In job_ptr job_list -> IS_JOB_PENDING job_ptr = false) ->
  site_factor_p_update job_list w = (job_list, w).
Proof.
  induction job_list as [|x rest IH]; intros Hnone.
  - reflexivity.
  - rewrite site_factor_p_update_step.
    rewrite (Hnone x (or_introl eq_refl)).
    rewrite IH by (intros j Hj; apply Hnone; now right).
    reflexivity.
Qed.

Lemma update_without_pending_witness :
  @site_factor_p_update slurm_h_19_05 libm_glibc
    [running_job 1000000 10; running_job 1000300 20]
    (world_at 5 100 2 1000600) =
  ([running_job 1000000 10; running_job 1000300 20],
   world_at 5 100 2 1000600).
Proof.
  apply (@update_without_pending slurm_h_19_05 libm_glibc).
  intros job_ptr [<- | [<- | []]]; reflexivity.
Defined.

(** X21: the bulk update of a list in two parts is the update of the first
    part followed by the update of the second in the world that the first
    has left. *)
Theorem update_app `{slurm_h} `{libm} (l1 l2 : list job_record) (w : world) :
  site_factor_p_update (l1 ++ l2) w =
  (fst (site_factor_p_update l1 w) ++
   fst (site_factor_p_update l2 (snd (site_factor_p_update l1 w))),
   snd (site_factor_p_update l2 (snd (site_factor_p_update l1 w))))%list.
Proof.
  revert w. induction l1 as [|x rest IH]; intros w.
  - cbn [app]. change (site_factor_p_update [] w) with (@nil job_record, w).
    cbn [fst snd app]. now destruct (site_factor_p_update l2 w).
  - cbn [app]. rewrite !site_factor_p_update_step.
    destruct (IS_JOB_PENDING x); rewrite IH; reflexivity.
Qed.

(** X22: the bulk update reads the clock once for each pending job of the
    list, and leaves the parameters, the configuration string, the debug
    flags and the clock as they are. *)
Theorem update_reads_clock `{slurm_h} `{libm}
    (job_list : list job_record) (w : world) :
  let w' := snd (site_factor_p_update job_list w) in
  time_calls w' = (time_calls w + count_pending job_list)%nat /\
  parameters w' = parameters w /\
  priority_site_factor_params w' = priority_site_factor_params w /\
  debug_flags w' = debug_flags w /\
  wall_clock w' = wall_clock w.
Proof.
  cbv zeta. revert w. unfold count_pending.
  induction job_list as [|x rest IH]; intros w.
  - cbn [filter List.length]. rewrite Nat.add_0_r. now repeat split.
  - rewrite site_factor_p_update_step. cbn [filter].
    destruct (IS_JOB_PENDING x); cbn [snd List.length].
    + destruct (IH (snd (site_factor_p_set x w)))
        as (Ht & Hp & Hc & Hf & Hk).
      destruct (site_factor_p_set_world x w)
        as (Hp' & Hc' & Hf' & Hk' & Ht').
      cbv zeta in *. rewrite Ht, Hp, Hc, Hf, Hk, Ht'.
      repeat split; try assumption. lia.
    + apply IH.
Qed.

(** ** An update overwrites the one before *)

Section Update_overwrites.

Context `{slurm_h} `{libm}.

Hypothesis IS_JOB_PENDING_site_factor :
  forall job_ptr v,
    IS_JOB_PENDING (set_site_factor job_ptr v) = IS_JOB_PENDING job_ptr.

Lemma _calc_factor_set_site_factor job_ptr v w :
  _calc_factor (set_site_factor job_ptr v) w = _calc_factor job_ptr w.
Proof. reflexivity. Qed.

Lemma site_factor_p_set_set_site_factor job_ptr v w :
  site_factor_p_set (set_site_factor job_ptr v) w = site_factor_p_set job_ptr w.
Proof.
  unfold site_factor_p_set, bind, ret.
  rewrite _calc_factor_set_site_factor.
  destruct (_calc_factor job_ptr w). reflexivity.
Qed.

Lemma site_factor_p_set_is_set_site_factor job_ptr w :
  exists v, fst (site_factor_p_set job_ptr w) = set_site_factor job_ptr v.
Proof.
  unfold site_factor_p_set, bind, ret.
  destruct (_calc_factor job_ptr w) as [factor w']. now eexists.
Qed.

Lemma site_factor_p_update_overwrites job_list w1 w2 :
  site_factor_p_update (fst (site_factor_p_update job_list w1)) w2 =
  site_factor_p_update job_list w2.
Proof.
  revert w1 w2. induction job_list as [|x rest IH]; intros w1 w2.
  - reflexivity.
  - rewrite (site_factor_p_update_step x rest w1).
    destruct (IS_JOB_PENDING x) eqn:Hp; cbn [fst].
    + destruct (site_factor_p_set_is_set_site_factor x w1) as [v ->].
      rewrite !site_factor_p_update_step.
      rewrite IS_JOB_PENDING_site_factor, Hp.
      rewrite site_factor_p_set_set_site_factor, IH. reflexivity.
    + rewrite !site_factor_p_update_step, Hp, IH. reflexivity.
Qed.

End Update_overwrites.

(** X23: where the pending state of a job does not depend on its site
    factor, as with the macro of Slurm, a bulk update overwrites what an
    earlier one wrote: updating an updated list gives the list and the world
    that updating the original list gives. *)
Theorem update_overwrites `{slurm_h} `{libm}
    (job_list : list job_record) (w1 w2 : world) :
  (forall job_ptr v,
     IS_JOB_PENDING (set_site_factor job_ptr v) = IS_JOB_PENDING job_ptr) ->
  site_factor_p_update (fst (site_factor_p_update job_list w1)) w2 =
  site_factor_p_update job_list w2.
Proof.
  intros Hpending. now apply site_factor_p_update_overwrites.
Qed.

Lemma update_overwrites_witness :
  let job_list := [pending_job 1000000 10; running_job 1000000 10] in
  @site_factor_p_update slurm_h_19_05 libm_glibc
    (fst (@site_factor_p_update slurm_h_19_05 libm_glibc job_list
            (world_at 5 100 2 1000100)))
    (world_at 5 100 2 1000600) =
  @site_factor_p_update slurm_h_19_05 libm_glibc job_list
    (world_at 5 100 2 1000600).
Proof.
  apply (@update_overwrites slurm_h_19_05 libm_glibc).
  intros job_ptr v. reflexivity.
Defined.
